(** * 0g-compute-ts-starter-kit: query and settlement workflow

    A shallow embedding of the two TypeScript front ends of the starter kit:

    - [BrokerService]: the service class behind the REST API
      (class [BrokerService], methods [depositFunds], [settleFee],
      [sendQuery], ...);
    - [Cli]: the command-line program ([depositFunds], [settleFeeManually],
      [sendQuery], [main], ...).

    Both talk to two outside parties, the 0G payment broker and the
    OpenAI-compatible inference endpoint.  Every awaited call to them is an
    event of a trace; what the outside answers is given by a [World], a
    family of oracles that may depend on the whole history of earlier
    events.  Console output is part of the same trace. *)

From Stdlib Require Import ZArith List String.
From Stdlib Require Import Floats.SpecFloat.
From stdpp Require Import gmap strings list fin_maps.

Local Open Scope string_scope.
Local Open Scope list_scope.

(** ** JavaScript values *)

(** A JS [number] is an IEEE-754 double; only its class and its order
    against zero are ever inspected by the program. *)
Abbreviation number := spec_float.

Definition zero : number := S754_zero false.

(** [isNaN(x)] *)
Definition isNaN (x : number) : bool :=
  match x with S754_nan => true | _ => false end.

(** Truthiness of a number: [0], [-0] and [NaN] are falsy. *)
Definition truthy_number (x : number) : bool :=
  match x with
  | S754_zero _ | S754_nan => false
  | _ => true
  end.

(** [x > y], [x <= y]: false as soon as one side is [NaN]. *)
Definition gt (x y : number) : bool := SFltb y x.
Definition le (x y : number) : bool := SFleb x y.

(** Truthiness of a string: only the empty string is falsy. *)
Definition truthy_string (s : string) : bool :=
  match s with EmptyString => false | _ => true end.

(** The values a field of type [any] may hold, as far as the program can
    tell them apart ([typeof value === 'string']). *)
Inductive JsValue : Type :=
| JUndefined
| JNull
| JBool (b : bool)
| JNumber (n : number)
| JString (s : string).

Definition typeof_is_string (v : JsValue) : bool :=
  match v with JString _ => true | _ => false end.

(** Thrown values.  The program reads [error.message] and, in the CLI,
    [error.response.status] and [error.response.data]. *)
Record ApiResponse : Type := { status : JsValue; data : JsValue }.

Record JsError : Type := { message : string; response : option ApiResponse }.

(** [new Error(msg)] *)
Definition Error (msg : string) : JsError :=
  {| message := msg; response := None |}.

(** What the engine throws on [undefined.message]: a [TypeError]; the text
    is the one of V8. *)
Definition TypeError_undefined_message : JsError :=
  Error "Cannot read properties of undefined (reading 'message')".

(** The line feed of the [\n] escapes in the console messages. *)
Definition LF : string := String (Ascii.ascii_of_nat 10) EmptyString.

(** ** Data exchanged with the broker and the endpoint *)

Record Wallet : Type := { address : string }.

Record ServiceMetadata : Type := { endpoint : string; model : string }.

Record Service : Type :=
  { svc_model : string; svc_provider : string;
    svc_serviceType : string; svc_url : string }.

(** The body of a chat completion request. *)
Record ChatMessage : Type := { role : string; msg_content : string }.

Record ChatRequest : Type :=
  { messages : list ChatMessage; req_model : string }.

(** The part of a chat completion the program looks at:
    [completion.id] and [completion.choices[i].message.content]. *)
Record Choice : Type := { choice_content : option string }.

Record ChatCompletion : Type :=
  { completion_id : string; choices : list Choice }.

(** ** Results, events and the world *)

(** The result of an awaited call: a value or a thrown error. *)
Inductive Result (A : Type) : Type :=
| Ok (a : A)
| Throw (e : JsError).
Arguments Ok {A} a.
Arguments Throw {A} e.

(** Console output.  A template literal or an argument list is kept as the
    list of its pieces; a piece that is not a string stays symbolic. *)
Inductive Level : Type := Log | ErrorLog.

Inductive Piece : Type :=
| PStr (s : string)
| PNum (n : number)
| PNat (n : nat)
| PAny (v : JsValue)
| PContent (c : option string)
| PHelpText.

Inductive Event : Type :=
| EvNewWallet (privateKey : string) (r : Result Wallet)
| EvCreateBroker (w : Wallet) (r : Result unit)
| EvDepositFund (amount : number) (r : Result unit)
| EvAddLedger (amount : number) (r : Result unit)
| EvGetLedger (r : Result JsValue)
| EvListService (r : Result (list Service))
| EvSettleFee (provider : string) (fee : number) (r : Result unit)
| EvGetServiceMetadata (provider : string) (r : Result ServiceMetadata)
| EvGetRequestHeaders (provider query : string)
                      (r : Result (gmap string JsValue))
| EvChatCreate (baseURL apiKey : string) (body : ChatRequest)
               (headers : gmap string string) (r : Result ChatCompletion)
| EvProcessResponse (provider content chatId : string) (r : Result bool)
| EvConsole (l : Level) (line : list Piece).

(** Events in the order they happened. *)
Definition Trace : Type := list Event.

(** The outside world: the answer to each call, given the history so far. *)
Record World : Type :=
  { w_newWallet : Trace -> string -> Result Wallet;
    w_createBroker : Trace -> Wallet -> Result unit;
    w_depositFund : Trace -> number -> Result unit;
    w_addLedger : Trace -> number -> Result unit;
    w_getLedger : Trace -> Result JsValue;
    w_listService : Trace -> Result (list Service);
    w_settleFee : Trace -> string -> number -> Result unit;
    w_getServiceMetadata : Trace -> string -> Result ServiceMetadata;
    w_getRequestHeaders : Trace -> string -> string ->
                          Result (gmap string JsValue);
    w_chatCreate : Trace -> string -> string -> ChatRequest ->
                   gmap string string -> Result ChatCompletion;
    w_processResponse : Trace -> string -> string -> string -> Result bool }.

(** ** The monad of async functions *)

(** How an async function ends: it returns, it throws, or the process is
    ended by [process.exit(code)], which no [catch] intercepts. *)
Inductive Outcome (A : Type) : Type :=
| Returned (a : A)
| Thrown (e : JsError)
| Exited (code : Z).
Arguments Returned {A} a.
Arguments Thrown {A} e.
Arguments Exited {A} code.

Definition M (A : Type) : Type := World -> Trace -> Outcome A * Trace.

Definition ret {A} (a : A) : M A := fun _ t => (Returned a, t).

Definition bind {A B} (m : M A) (k : A -> M B) : M B :=
  fun w t =>
    match m w t with
    | (Returned a, t') => k a w t'
    | (Thrown e, t') => (Thrown e, t')
    | (Exited c, t') => (Exited c, t')
    end.

Definition throw {A} (e : JsError) : M A := fun _ t => (Thrown e, t).

Definition process_exit {A} (code : Z) : M A := fun _ t => (Exited code, t).

(** [try { m } catch (error) { h error }] *)
Definition try_catch {A} (m : M A) (h : JsError -> M A) : M A :=
  fun w t =>
    match m w t with
    | (Thrown e, t') => h e w t'
    | other => other
    end.

(** [await] of an outside call: ask the world, record the event. *)
Definition call {A} (ask : World -> Trace -> Result A)
           (ev : Result A -> Event) : M A :=
  fun w t =>
    let r := ask w t in
    (match r with Ok a => Returned a | Throw e => Thrown e end, t ++ [ev r]).

Definition console (l : Level) (line : list Piece) : M unit :=
  fun _ t => (Returned tt, t ++ [EvConsole l line]).

Notation "x <- m ;; k" := (bind m (fun x => k))
  (at level 100, m at next level, right associativity).
Notation "m ;;; k" := (bind m (fun _ => k))
  (at level 100, right associativity).

(** Running a program from an empty history. *)
Definition run {A} (m : M A) (w : World) : Outcome A * Trace := m w [].

(** *** The calls *)

Definition newWallet (key : string) : M Wallet :=
  call (fun w t => w_newWallet w t key) (EvNewWallet key).
Definition createZGComputeNetworkBroker (wl : Wallet) : M unit :=
  call (fun w t => w_createBroker w t wl) (EvCreateBroker wl).
Definition ledger_depositFund (amount : number) : M unit :=
  call (fun w t => w_depositFund w t amount) (EvDepositFund amount).
Definition ledger_addLedger (amount : number) : M unit :=
  call (fun w t => w_addLedger w t amount) (EvAddLedger amount).
Definition ledger_getLedger : M JsValue :=
  call (fun w t => w_getLedger w t) EvGetLedger.
Definition inference_listService : M (list Service) :=
  call (fun w t => w_listService w t) EvListService.
Definition inference_settleFee (provider : string) (fee : number) : M unit :=
  call (fun w t => w_settleFee w t provider fee) (EvSettleFee provider fee).
Definition inference_getServiceMetadata (provider : string)
  : M ServiceMetadata :=
  call (fun w t => w_getServiceMetadata w t provider)
       (EvGetServiceMetadata provider).
Definition inference_getRequestHeaders (provider query : string)
  : M (gmap string JsValue) :=
  call (fun w t => w_getRequestHeaders w t provider query)
       (EvGetRequestHeaders provider query).
Definition inference_processResponse (provider content chatId : string)
  : M bool :=
  call (fun w t => w_processResponse w t provider content chatId)
       (EvProcessResponse provider content chatId).
(** [new OpenAI({baseURL, apiKey}).chat.completions.create(body, {headers})] *)
Definition chat_completions_create (baseURL apiKey : string)
           (body : ChatRequest) (headers : gmap string string)
  : M ChatCompletion :=
  call (fun w t => w_chatCreate w t baseURL apiKey body headers)
       (EvChatCreate baseURL apiKey body headers).

(** ** Code shared by the two front ends, as written in both *)

(** [[
      const requestHeaders: Record<string, string> = {};
      Object.entries(headers).forEach(([key, value]) => {
        if (typeof value === 'string') { requestHeaders[key] = value; }
      });
    ]] *)
Definition copy_header (key : string) (value : JsValue)
           (requestHeaders : gmap string string) : gmap string string :=
  match value with
  | JString s => <[key := s]> requestHeaders
  | _ => requestHeaders
  end.

Definition prepareHeaders (headers : gmap string JsValue)
  : gmap string string :=
  map_fold copy_header ∅ headers.

(** [completion.choices[0].message.content]: [choices[0]] is [undefined]
    on an empty array, and reading [.message] of it throws. *)
Definition first_choice_content (completion : ChatCompletion)
  : M (option string) :=
  match choices completion with
  | [] => throw TypeError_undefined_message
  | c :: _ => ret (choice_content c)
  end.

(** [content || ""] *)
Definition content_or_empty (content : option string) : string :=
  match content with
  | Some s => if truthy_string s then s else ""
  | None => ""
  end.

(** [if (fallbackFee && fallbackFee > 0)]: the fee the branch goes on
    with, if the condition holds.  [None] is [undefined]. *)
Definition usable_fee (fallbackFee : option number) : option number :=
  match fallbackFee with
  | Some fee => if truthy_number fee && gt fee zero then Some fee else None
  | None => None
  end.

(** ** The service class of the REST API *)

Module BrokerService.

(** The private fields of the class. *)
Record t : Type :=
  { wallet : option Wallet;
    broker : option unit;
    initialized : bool;
    initPromise : option (Result unit) }.

(** What the method returns: [{ content, metadata: {...} }], where
    [metadata] has one of two shapes. *)
Inductive Metadata : Type :=
| Validated (model : string) (isValid : bool) (provider : string)
| Fallback (model : string) (usedFallbackFee : bool)
           (fallbackFeeAmount : number) (provider : string).

Record QueryResult : Type :=
  { content : option string; metadata : Metadata }.

(** [constructor] followed by [initialize], up to the point where
    [initPromise] is settled: the fields of the object then, and the
    events on the way.  [PRIVATE_KEY] is [process.env.PRIVATE_KEY]. *)
Definition construct (PRIVATE_KEY : option string) (w : World) (t0 : Trace)
  : t * Trace :=
  let failed (wl : option Wallet) (e : JsError) (t1 : Trace) :=
    ({| wallet := wl; broker := None; initialized := false;
        initPromise := Some (Throw e) |},
     t1 ++ [EvConsole ErrorLog
              [PStr "Failed to initialize broker service:";
               PStr (message e)]]) in
  match PRIVATE_KEY with
  | Some privateKey =>
      if truthy_string privateKey then
        let r1 := w_newWallet w t0 privateKey in
        let t1 := t0 ++ [EvNewWallet privateKey r1] in
        match r1 with
        | Ok wl =>
            let r2 := w_createBroker w t1 wl in
            let t2 := t1 ++ [EvCreateBroker wl r2] in
            match r2 with
            | Ok _ =>
                ({| wallet := Some wl; broker := Some tt;
                    initialized := true; initPromise := Some (Ok tt) |},
                 t2 ++ [EvConsole Log
                          [PStr "Broker service initialized successfully with wallet:";
                           PStr (address wl)]])
            | Throw e => failed (Some wl) e t2
            end
        | Throw e => failed None e t1
        end
      else failed None (Error "PRIVATE_KEY is required in .env file") t0
  | None => failed None (Error "PRIVATE_KEY is required in .env file") t0
  end.

(** [await p] for a promise that is already settled. *)
Definition await (p : Result unit) : M unit :=
  match p with Ok _ => ret tt | Throw e => throw e end.

Definition ensureInitialized (this : t) : M unit :=
  (if negb (initialized this)
   then match initPromise this with Some p => await p | None => ret tt end
   else ret tt) ;;;
  match broker this, wallet this with
  | Some _, Some _ => ret tt
  | _, _ => throw (Error "Broker service not properly initialized")
  end.

Definition depositFunds (this : t) (amount : number) : M string :=
  ensureInitialized this ;;;
  try_catch
    (ledger_depositFund amount ;;; ret "Deposit successful")
    (fun error =>
       throw (Error ("Failed to deposit funds: " +:+ message error))).

Definition addFundsToLedger (this : t) (amount : number) : M string :=
  ensureInitialized this ;;;
  try_catch
    (ledger_addLedger amount ;;; ret "Funds added to ledger successfully")
    (fun error =>
       throw (Error ("Failed to add funds to ledger: " +:+ message error))).

Definition getBalance (this : t) : M JsValue :=
  ensureInitialized this ;;;
  try_catch
    (balanceInfo <- ledger_getLedger ;; ret balanceInfo)
    (fun error =>
       throw (Error ("Failed to get balance: " +:+ message error))).

Definition listServices (this : t) : M (list Service) :=
  ensureInitialized this ;;;
  try_catch
    (services <- inference_listService ;; ret services)
    (fun error =>
       throw (Error ("Failed to list services: " +:+ message error))).

Definition settleFee (this : t) (providerAddress : string) (fee : number)
  : M string :=
  ensureInitialized this ;;;
  try_catch
    (inference_settleFee providerAddress fee ;;;
     ret "Fee settled successfully")
    (fun error =>
       throw (Error ("Failed to settle fee: " +:+ message error))).

Definition sendQuery (this : t) (providerAddress query : string)
           (fallbackFee : option number) : M QueryResult :=
  ensureInitialized this ;;;
  try_catch
    (md <- inference_getServiceMetadata providerAddress ;;
     headers <- inference_getRequestHeaders providerAddress query ;;
     let requestHeaders := prepareHeaders headers in
     completion <-
       chat_completions_create (endpoint md) ""
         {| messages := [ {| role := "user"; msg_content := query |} ];
            req_model := model md |}
         requestHeaders ;;
     content <- first_choice_content completion ;;
     let chatId := completion_id completion in
     try_catch
       (isValid <- inference_processResponse providerAddress
                     (content_or_empty content) chatId ;;
        ret {| content := content;
               metadata := Validated (model md) isValid providerAddress |})
       (fun error =>
          match usable_fee fallbackFee with
          | Some fee =>
              settleFee this providerAddress fee ;;;
              ret {| content := content;
                     metadata :=
                       Fallback (model md) true fee providerAddress |}
          | None =>
              throw (Error ("Payment processing failed: "
                            +:+ message error))
          end))
    (fun error => throw (Error ("Query failed: " +:+ message error))).

End BrokerService.

(** ** The command-line program *)

Module Cli.

(** The functions below use the global [broker]; [main] calls them only
    after [initializeWalletAndBroker] has returned. *)

(** [const shortToLong: Record<string, string>] *)
Definition shortToLong : gmap string string :=
  list_to_map
    [ ("k", "privateKey"); ("l", "ls"); ("d", "depositFee");
      ("a", "addLedger"); ("b", "balance"); ("s", "settleFee");
      ("p", "provider"); ("q", "query"); ("f", "fallbackFee");
      ("h", "help") ].

(** [s.startsWith(p)] and [s.substring(n)] *)
Definition startsWith (p s : string) : bool := String.prefix p s.
Definition substring_from (n : nat) (s : string) : string :=
  String.substring n (String.length s - n) s.

(** [parseArgs], on [args = process.argv.slice(2)].  The loop index moves
    by one, or by two when the next argument is taken as the value.
    [flags] and [shortToLong] are plain objects in the source; they are
    read here as the maps of their own properties, which is what they are
    for every name but those inherited from [Object.prototype]
    ([__proto__], [constructor], [toString], ...): a flag of such a name is
    outside this model. *)
Fixpoint parseArgs_loop (args : list string) (flags : gmap string string)
  : gmap string string :=
  match args with
  | [] => flags
  | arg :: rest =>
      let store (flag : string) :=
        match rest with
        | value :: rest' =>
            if negb (startsWith "-" value)
            then parseArgs_loop rest' (<[flag := value]> flags)
            else parseArgs_loop rest (<[flag := "true"]> flags)
        | [] => parseArgs_loop rest (<[flag := "true"]> flags)
        end in
      if startsWith "--" arg then store (substring_from 2 arg)
      else if startsWith "-" arg then
        let shortFlag := substring_from 1 arg in
        store (match shortToLong !! shortFlag with
               | Some longFlag => longFlag
               | None => shortFlag
               end)
      else parseArgs_loop rest flags
  end.

Definition parseArgs (args : list string) : gmap string string :=
  parseArgs_loop args ∅.

(** [flags[name]] where it is used as a condition and then as a value:
    [None] when the entry is missing or is the empty string. *)
Definition flag (flags : gmap string string) (name : string)
  : option string :=
  match flags !! name with
  | Some v => if truthy_string v then Some v else None
  | None => None
  end.

Definition initializeWalletAndBroker (privateKey : string) : M unit :=
  try_catch
    (console Log [PStr "Using private key (first few chars):";
                  PStr (String.substring 0 6 privateKey +:+ "...")] ;;;
     wallet <- newWallet privateKey ;;
     console Log [PStr "Wallet address:"; PStr (address wallet)] ;;;
     console Log [PStr "Initializing broker..."] ;;;
     createZGComputeNetworkBroker wallet ;;;
     console Log [PStr "Broker initialized successfully"] ;;;
     ret tt)
    (fun error =>
       console ErrorLog [PStr "Error initializing wallet and broker:";
                         PStr (message error)] ;;;
       throw error).

Definition checkBalance : M unit :=
  try_catch
    (balance <- ledger_getLedger ;;
     console Log [PStr "Current balance:"; PAny balance])
    (fun error =>
       console ErrorLog [PStr "Error checking balance:";
                         PStr (message error)]).

Definition depositFunds (amount : number) : M unit :=
  try_catch
    (console Log [PStr "Depositing "; PNum amount; PStr " ETH..."] ;;;
     ledger_depositFund amount ;;;
     console Log [PStr "Deposit successful."] ;;;
     checkBalance)
    (fun error =>
       console ErrorLog [PStr "Error depositing funds:";
                         PStr (message error)]).

Definition addFundsToLedger (amount : number) : M unit :=
  try_catch
    (console Log [PStr "Adding "; PNum amount; PStr " to ledger..."] ;;;
     ledger_addLedger amount ;;;
     console Log [PStr "Funds added successfully."] ;;;
     checkBalance)
    (fun error =>
       console ErrorLog [PStr "Error adding funds to ledger:";
                         PStr (message error)]).

(** The body of [services.forEach((service, index) => ...)]. *)
Fixpoint print_services (index : nat) (services : list Service) : M unit :=
  match services with
  | [] => ret tt
  | service :: rest =>
      console Log [PStr (LF +:+ "["); PNat (index + 1);
                   PStr "] Service Details:"] ;;;
      console Log [PStr "- Model: "; PStr (svc_model service)] ;;;
      console Log [PStr "- Provider: "; PStr (svc_provider service)] ;;;
      console Log [PStr "- Type: "; PStr (svc_serviceType service)] ;;;
      console Log [PStr "- URL: "; PStr (svc_url service)] ;;;
      print_services (S index) rest
  end.

Definition listServices : M unit :=
  try_catch
    (console Log [PStr (LF +:+ "Listing available services...")] ;;;
     services <- inference_listService ;;
     console Log [PStr (LF +:+ "Found"); PNat (length services);
                  PStr "services:"] ;;;
     print_services 0 services)
    (fun error =>
       console ErrorLog [PStr "Error listing services:";
                         PStr (message error)]).

Definition settleFeeManually (providerAddress : string) (fee : number)
  : M unit :=
  console Log [PStr "Settling fee of "; PNum fee; PStr " for provider ";
               PStr providerAddress; PStr "..."] ;;;
  try_catch
    (inference_settleFee providerAddress fee ;;;
     console Log [PStr "Fee settled successfully"])
    (fun error =>
       console ErrorLog [PStr "Error settling fee:";
                         PStr (message error)]).

Definition sendQuery (providerAddress query : string)
           (fallbackFee : option number) : M unit :=
  try_catch
    (console Log [PStr "Sending query to provider ";
                  PStr providerAddress; PStr "..."] ;;;
     console Log [PStr "Getting service metadata..."] ;;;
     md <- inference_getServiceMetadata providerAddress ;;
     console Log [PStr "Endpoint:"; PStr (endpoint md)] ;;;
     console Log [PStr "Model:"; PStr (model md)] ;;;
     console Log [PStr "Getting request headers..."] ;;;
     headers <- inference_getRequestHeaders providerAddress query ;;
     console Log [PStr "Request headers obtained"] ;;;
     let requestHeaders := prepareHeaders headers in
     console Log [PStr (LF +:+ "Sending request to AI service...")] ;;;
     completion <-
       chat_completions_create (endpoint md) ""
         {| messages := [ {| role := "user"; msg_content := query |} ];
            req_model := model md |}
         requestHeaders ;;
     content <- first_choice_content completion ;;
     console Log [PStr (LF +:+ "Response from AI:")] ;;;
     console Log [PContent content] ;;;
     let chatId := completion_id completion in
     try_catch
       (console Log [PStr (LF +:+ "Processing response payment...")] ;;;
        isValid <- inference_processResponse providerAddress
                     (content_or_empty content) chatId ;;
        console Log [PStr ("Response validity: "
                           +:+ (if isValid then "Valid" else "Invalid"))])
       (fun error =>
          console Log [PStr "Error processing response:";
                       PStr (message error)] ;;;
          match usable_fee fallbackFee with
          | Some fee =>
              console Log [PStr "Using fallback fee of "; PNum fee;
                           PStr "..."] ;;;
              settleFeeManually providerAddress fee
          | None =>
              console Log [PStr "No fallback fee specified. Payment may not have been processed."]
          end))
    (fun error =>
       console ErrorLog [PStr "Error sending query:";
                         PStr (message error)] ;;;
       match response error with
       | Some resp =>
           console ErrorLog [PStr "API Error status:"; PAny (status resp)] ;;;
           console ErrorLog [PStr "API Error data:"; PAny (data resp)]
       | None => ret tt
       end).

Definition showHelp : M unit := console Log [PHelpText].

Section Main.

(** The built-in [parseFloat]. *)
Variable parseFloat : string -> number.

Definition operations : list string :=
  ["ls"; "depositFee"; "balance"; "addLedger"; "settleFee"; "query"].

(** [main], given [process.argv.slice(2)] and
    [process.env.PRIVATE_KEY]. *)
Definition main (argv : list string) (PRIVATE_KEY : option string)
  : M unit :=
  try_catch
    (let flags := parseArgs argv in
     match flag flags "help" with
     | Some _ => showHelp
     | None =>
     privateKey <-
       match flag flags "privateKey" with
       | Some k => ret k
       | None =>
           match PRIVATE_KEY with
           | Some k =>
               if truthy_string k then ret k
               else
                 console ErrorLog [PStr "Private key is required. Use -k/--privateKey [key] or set PRIVATE_KEY in .env"] ;;;
                 process_exit 1
           | None =>
               console ErrorLog [PStr "Private key is required. Use -k/--privateKey [key] or set PRIVATE_KEY in .env"] ;;;
               process_exit 1
           end
       end ;;
     initializeWalletAndBroker privateKey ;;;
     match flag flags "ls" with
     | Some _ => listServices
     | None =>
     match flag flags "depositFee" with
     | Some text =>
         let amount := parseFloat text in
         if negb (isNaN amount) && gt amount zero
         then depositFunds amount
         else console ErrorLog [PStr "Invalid deposit amount"]
     | None =>
     match flag flags "balance" with
     | Some _ => checkBalance
     | None =>
     match flag flags "addLedger" with
     | Some text =>
         let amount := parseFloat text in
         if negb (isNaN amount) && gt amount zero
         then addFundsToLedger amount
         else console ErrorLog [PStr "Invalid ledger amount"]
     | None =>
     match flag flags "settleFee" with
     | Some text =>
         match flag flags "provider" with
         | None =>
             console ErrorLog [PStr "Provider address is required with -p/--provider [address]"]
         | Some provider =>
             let fee := parseFloat text in
             if negb (isNaN fee) && gt fee zero
             then settleFeeManually provider fee
             else console ErrorLog [PStr "Invalid fee amount"]
         end
     | None =>
     match flag flags "query" with
     | Some query =>
         match flag flags "provider" with
         | None =>
             console ErrorLog [PStr "Provider address is required with -p/--provider [address]"]
         | Some provider =>
             match flag flags "fallbackFee" with
             | Some text =>
                 let fallbackFee := parseFloat text in
                 if isNaN fallbackFee || le fallbackFee zero
                 then console ErrorLog [PStr "Invalid fallback fee amount"]
                 else sendQuery provider query (Some fallbackFee)
             | None => sendQuery provider query None
             end
         end
     | None =>
         if existsb (fun key => existsb (String.eqb key) operations)
                    (map fst (map_to_list flags))
         then ret tt
         else console Log [PStr "No operation specified."] ;;; showHelp
     end end end end end end
     end)
    (fun error =>
       console ErrorLog [PStr "Error:"; PStr (message error)] ;;;
       process_exit 1).

End Main.

End Cli.

(** ** Reading a trace *)

(** The chat completions received, oldest first. *)
Definition responses (t : Trace) : list ChatCompletion :=
  omap (fun e => match e with
                 | EvChatCreate _ _ _ _ (Ok c) => Some c
                 | _ => None
                 end) t.

(** The automatic settlement calls [processResponse(provider, content,
    chatId)], each with its result. *)
Definition settlements (t : Trace)
  : list (string * string * string * Result bool) :=
  omap (fun e => match e with
                 | EvProcessResponse p c i r => Some (p, c, i, r)
                 | _ => None
                 end) t.

(** The manual settlement calls [settleFee(provider, fee)]. *)
Definition fallbacks (t : Trace) : list (string * number * Result unit) :=
  omap (fun e => match e with
                 | EvSettleFee p f r => Some (p, f, r)
                 | _ => None
                 end) t.

(** The amounts [depositFund] was called with. *)
Definition deposits (t : Trace) : list number :=
  omap (fun e => match e with
                 | EvDepositFund a _ => Some a
                 | _ => None
                 end) t.

(** The service metadata resolved and the headers issued by the broker. *)
Definition resolved (t : Trace) : list ServiceMetadata :=
  omap (fun e => match e with
                 | EvGetServiceMetadata _ (Ok md) => Some md
                 | _ => None
                 end) t.

Definition issued (t : Trace) : list (gmap string JsValue) :=
  omap (fun e => match e with
                 | EvGetRequestHeaders _ _ (Ok headers) => Some headers
                 | _ => None
                 end) t.

(** The inference requests sent: base URL, API key, body and headers. *)
Definition requests (t : Trace)
  : list (string * string * ChatRequest * gmap string string) :=
  omap (fun e => match e with
                 | EvChatCreate baseURL apiKey body headers _ =>
                     Some (baseURL, apiKey, body, headers)
                 | _ => None
                 end) t.

(** An event that is not a deposit of an amount that is [NaN] or not
    greater than zero. *)
Definition deposit_ok (e : Event) : bool :=
  match e with
  | EvDepositFund amount _ => negb (isNaN amount) && gt amount zero
  | _ => true
  end.

Definition deposits_checked (e : Event) : Prop := deposit_ok e = true.

(** [emits P m]: whatever the world and the history, [m] only adds events
    that satisfy [P] to the trace. *)
Definition emits (P : Event -> Prop) {A} (m : M A) : Prop :=
  forall w t, exists d, snd (m w t) = t ++ d /\ Forall P d.

(** The lines written to the console. *)
Definition printed (t : Trace) : list (Level * list Piece) :=
  omap (fun e => match e with
                 | EvConsole l line => Some (l, line)
                 | _ => None
                 end) t.

(** The header a broker-issued value becomes, if any. *)
Definition as_header (v : JsValue) : option string :=
  match v with JString s => Some s | _ => None end.

(** The three payment outcomes the specification tells apart, and the one
    a returned result stands for: the two shapes of [metadata]. *)
Inductive PaymentOutcome : Type := Verified | FallbackSettled | Unsettled.

Definition paymentOutcome (r : BrokerService.QueryResult) : PaymentOutcome :=
  match BrokerService.metadata r with
  | BrokerService.Validated _ _ _ => Verified
  | BrokerService.Fallback _ _ _ _ => FallbackSettled
  end.

(** ** Scripted worlds *)

Module Scenario.

(** An initialised service object. *)
Definition service : BrokerService.t :=
  {| BrokerService.wallet := Some {| address := "0xW" |};
     BrokerService.broker := Some tt;
     BrokerService.initialized := true;
     BrokerService.initPromise := Some (Ok tt) |}.

(** The double nearest to 0.01. *)
Definition fee_0_01 : number := S754_finite false 5764607523034235 (-59).

Definition minus_one : number := S754_finite true 1 0.

Definition metadata : ServiceMetadata :=
  {| endpoint := "https://provider.example/v1"; model := "llama-3" |}.

Definition issued : gmap string JsValue :=
  {[ "Address" := JString "0xW"; "Nonce" := JString "7" ]}.

(** Headers of a broker that leaves one field unset. *)
Definition issued_with_gap : gmap string JsValue :=
  {[ "Address" := JString "0xW"; "Nonce" := JUndefined ]}.

Definition completion (chatId : string) (content : option string)
  : ChatCompletion :=
  {| completion_id := chatId;
     choices := [ {| choice_content := content |} ] |}.

Definition no_choice : ChatCompletion :=
  {| completion_id := "chat-1"; choices := [] |}.

(** A world that answers the same whatever happened before. *)
Definition world (headers : gmap string JsValue) (answer : ChatCompletion)
           (auto : Result bool) (manual : Result unit) : World :=
  {| w_newWallet := fun _ _ => Ok {| address := "0xW" |};
     w_createBroker := fun _ _ => Ok tt;
     w_depositFund := fun _ _ => Ok tt;
     w_addLedger := fun _ _ => Ok tt;
     w_getLedger := fun _ => Ok JNull;
     w_listService := fun _ => Ok [];
     w_settleFee := fun _ _ _ => manual;
     w_getServiceMetadata := fun _ _ => Ok metadata;
     w_getRequestHeaders := fun _ _ _ => Ok headers;
     w_chatCreate := fun _ _ _ _ _ => Ok answer;
     w_processResponse := fun _ _ _ _ => auto |}.

Definition stale_fee : JsError := Error "stale fee".

(** Automatic settlement succeeds. *)
Definition A : World :=
  world issued (completion "chat-1" (Some "Hi there")) (Ok true) (Ok tt).

(** Automatic settlement fails, manual settlement succeeds. *)
Definition B : World :=
  world issued (completion "chat-1" (Some "Hi there"))
        (Throw stale_fee) (Ok tt).

(** Both settlements fail. *)
Definition B_failing : World :=
  world issued (completion "chat-1" (Some "Hi there"))
        (Throw stale_fee) (Throw (Error "insufficient balance")).

(** The broker finds the response invalid, without throwing. *)
Definition invalid : World :=
  world issued (completion "chat-1" (Some "Hi there")) (Ok false) (Ok tt).

(** The response carries an empty identifier. *)
Definition empty_id : World :=
  world issued (completion "" (Some "Hi there")) (Ok true) (Ok tt).

(** The response carries no content. *)
Definition null_content : World :=
  world issued (completion "chat-1" None) (Ok true) (Ok tt).

(** The response carries no choice at all. *)
Definition empty_choices : World :=
  world issued no_choice (Ok true) (Ok tt).

(** The broker issues a header without a string value. *)
Definition gap : World :=
  world issued_with_gap (completion "chat-1" (Some "Hi there"))
        (Ok true) (Ok tt).

(** A [parseFloat] that knows two texts. *)
Definition parseFloat (s : string) : number :=
  if String.eqb s "0" then zero
  else if String.eqb s "0.01" then fee_0_01
  else S754_nan.

End Scenario.

(** ** More readings of a trace *)

(** The calls to the outside, without the console lines. *)
Definition is_console (e : Event) : bool :=
  match e with EvConsole _ _ => true | _ => false end.

Definition calls (t : Trace) : Trace :=
  List.filter (fun e => negb (is_console e)) t.

(** The five calls a query can make, in the order of the source. *)
Inductive Stage : Type := Resolve | Issue | Infer | Settle | FallbackSettle.

Definition stage_of (e : Event) : option Stage :=
  match e with
  | EvGetServiceMetadata _ _ => Some Resolve
  | EvGetRequestHeaders _ _ _ => Some Issue
  | EvChatCreate _ _ _ _ _ => Some Infer
  | EvProcessResponse _ _ _ _ => Some Settle
  | EvSettleFee _ _ _ => Some FallbackSettle
  | _ => None
  end.

Definition stages (t : Trace) : list Stage := omap stage_of t.

Definition query_stages : list Stage :=
  [Resolve; Issue; Infer; Settle; FallbackSettle].

(** The balance reads [getLedger()], each with its result. *)
Definition balances (t : Trace) : list (Result JsValue) :=
  omap (fun e => match e with EvGetLedger r => Some r | _ => None end) t.

(** The service listings [listService()], each with its result. *)
Definition listings (t : Trace) : list (Result (list Service)) :=
  omap (fun e => match e with EvListService r => Some r | _ => None end) t.

(** The condition [!isNaN(amount) && amount > 0] of [main]. *)
Definition amount_ok (amount : number) : bool :=
  negb (isNaN amount) && gt amount zero.

(** An event that is not a ledger top-up or a manual settlement of an
    amount that fails [amount_ok]. *)
Definition amounts_checked (e : Event) : Prop :=
  match e with
  | EvAddLedger amount _ => amount_ok amount = true
  | EvSettleFee _ fee _ => amount_ok fee = true
  | _ => True
  end.

(** An event [main] adds before it has a broker, or a console line. *)
Definition startup_or_console (e : Event) : Prop :=
  match e with
  | EvNewWallet _ _ | EvCreateBroker _ _ | EvConsole _ _ => True
  | _ => False
  end.

(** A world whose broker and endpoint answer a query the same way whatever
    happened before. *)
Definition history_free (w : World) : Prop :=
  (forall t t' p, w_getServiceMetadata w t p = w_getServiceMetadata w t' p)
  /\ (forall t t' p q,
         w_getRequestHeaders w t p q = w_getRequestHeaders w t' p q)
  /\ (forall t t' u k b h, w_chatCreate w t u k b h = w_chatCreate w t' u k b h)
  /\ (forall t t' p c i,
         w_processResponse w t p c i = w_processResponse w t' p c i)
  /\ (forall t t' p f, w_settleFee w t p f = w_settleFee w t' p f).

(** How a run ends, without the value or the error. *)
Inductive Ending : Type := Returns | Throws | Exits (code : Z).

Definition ending {A} (o : Outcome A) : Ending :=
  match o with
  | Returned _ => Returns
  | Thrown _ => Throws
  | Exited code => Exits code
  end.

(** [ends E m]: whatever the world and the history, [m] ends in a way
    that satisfies [E]. *)
Definition ends (E : Ending -> Prop) {A} (m : M A) : Prop :=
  forall w t, E (ending (fst (m w t))).

Definition returns : Ending -> Prop := fun x => x = Returns.

Definition returns_or_throws : Ending -> Prop :=
  fun x => x = Returns \/ x = Throws.

Definition returns_or_exits_1 : Ending -> Prop :=
  fun x => x = Returns \/ x = Exits 1.

Definition no_exit_but_1 : Ending -> Prop :=
  fun x => x = Returns \/ x = Throws \/ x = Exits 1.

(** The providers and the numbers printed by the service listing. *)
Definition listed_providers (t : Trace) : list string :=
  omap (fun e => match e with
                 | EvConsole Log [PStr label; PStr provider] =>
                     if String.eqb label "- Provider: " then Some provider
                     else None
                 | _ => None
                 end) t.

Definition listed_numbers (t : Trace) : list nat :=
  omap (fun e => match e with
                 | EvConsole Log [PStr _; PNat n; PStr tail] =>
                     if String.eqb tail "] Service Details:" then Some n
                     else None
                 | _ => None
                 end) t.

(** ** More scripted worlds *)

Module Worlds.

Definition a_service : Service :=
  {| svc_model := "llama-3"; svc_provider := "0xAAA";
     svc_serviceType := "chatbot";
     svc_url := "https://provider.example" |}.

Definition another_service : Service :=
  {| svc_model := "deepseek"; svc_provider := "0xBBB";
     svc_serviceType := "chatbot";
     svc_url := "https://other.example" |}.

(** A broker whose ledger and listing change between two reads, and whose
    other answers are those of [Scenario.A]. *)
Definition changing : World :=
  {| w_newWallet := w_newWallet Scenario.A;
     w_createBroker := w_createBroker Scenario.A;
     w_depositFund := w_depositFund Scenario.A;
     w_addLedger := w_addLedger Scenario.A;
     w_getLedger :=
       fun t => match balances t with
                | [] => Ok (JString "1.0")
                | _ => Ok (JString "0.9")
                end;
     w_listService :=
       fun t => match listings t with
                | [] => Ok [a_service]
                | _ => Ok [a_service; another_service]
                end;
     w_settleFee := w_settleFee Scenario.A;
     w_getServiceMetadata := w_getServiceMetadata Scenario.A;
     w_getRequestHeaders := w_getRequestHeaders Scenario.A;
     w_chatCreate := w_chatCreate Scenario.A;
     w_processResponse := w_processResponse Scenario.A |}.

(** A world in which one of the calls of a query throws, or the ledger
    cannot be read; the rest is [Scenario.A]. *)
Definition failing (metadata : Result ServiceMetadata)
           (headers : Result (gmap string JsValue))
           (answer : Result ChatCompletion) (ledger : Result JsValue)
           (deposit : Result unit) : World :=
  {| w_newWallet := w_newWallet Scenario.A;
     w_createBroker := w_createBroker Scenario.A;
     w_depositFund := fun _ _ => deposit;
     w_addLedger := fun _ _ => deposit;
     w_getLedger := fun _ => ledger;
     w_listService := fun _ => Ok [a_service; another_service];
     w_settleFee := w_settleFee Scenario.A;
     w_getServiceMetadata := fun _ _ => metadata;
     w_getRequestHeaders := fun _ _ _ => headers;
     w_chatCreate := fun _ _ _ _ _ => answer;
     w_processResponse := w_processResponse Scenario.A |}.

(** The endpoint answers with HTTP 503. *)
Definition unavailable : JsError :=
  {| message := "503 Service Unavailable";
     response := Some {| status := JString "503"; data := JNull |} |}.

Definition transport_down : World :=
  failing (Ok Scenario.metadata) (Ok Scenario.issued) (Throw unavailable)
          (Ok JNull) (Ok tt).

(** The deposit goes through, the balance cannot be read afterwards. *)
Definition ledger_unreadable : World :=
  failing (Ok Scenario.metadata) (Ok Scenario.issued)
          (Ok (Scenario.completion "chat-1" (Some "Hi there")))
          (Throw (Error "ledger not found")) (Ok tt).

(** The key is not a private key: no wallet can be made of it. *)
Definition rejecting_key : World :=
  {| w_newWallet := fun _ _ => Throw (Error "invalid private key");
     w_createBroker := w_createBroker Scenario.A;
     w_depositFund := w_depositFund Scenario.A;
     w_addLedger := w_addLedger Scenario.A;
     w_getLedger := w_getLedger Scenario.A;
     w_listService := w_listService Scenario.A;
     w_settleFee := w_settleFee Scenario.A;
     w_getServiceMetadata := w_getServiceMetadata Scenario.A;
     w_getRequestHeaders := w_getRequestHeaders Scenario.A;
     w_chatCreate := w_chatCreate Scenario.A;
     w_processResponse := w_processResponse Scenario.A |}.

End Worlds.

(** ** The operations of the command line *)

(** The operations [main] chooses from, in the order of its [if]s, and the
    flag that asks for each. *)
Inductive Operation : Type :=
| OpList | OpDeposit | OpBalance | OpAddLedger | OpSettle | OpQuery.

Definition flag_of (op : Operation) : string :=
  match op with
  | OpList => "ls"
  | OpDeposit => "depositFee"
  | OpBalance => "balance"
  | OpAddLedger => "addLedger"
  | OpSettle => "settleFee"
  | OpQuery => "query"
  end.

(** The first operation, in that order, whose flag is set to a non-empty
    text. *)
Definition selected (flags : gmap string string) : option Operation :=
  List.find (fun op => match Cli.flag flags (flag_of op) with
                       | Some _ => true
                       | None => false
                       end)
            [OpList; OpDeposit; OpBalance; OpAddLedger; OpSettle; OpQuery].

(** The events an operation may add to the trace, besides the console
    lines and the creation of the wallet and the broker. *)
Definition belongs (op : option Operation) (e : Event) : Prop :=
  match e with
  | EvConsole _ _ | EvNewWallet _ _ | EvCreateBroker _ _ => True
  | EvListService _ => op = Some OpList
  | EvDepositFund _ _ => op = Some OpDeposit
  | EvAddLedger _ _ => op = Some OpAddLedger
  | EvGetLedger _ =>
      op = Some OpDeposit \/ op = Some OpBalance \/ op = Some OpAddLedger
  | EvSettleFee _ _ _ => op = Some OpSettle \/ op = Some OpQuery
  | EvGetServiceMetadata _ _ | EvGetRequestHeaders _ _ _
  | EvChatCreate _ _ _ _ _ | EvProcessResponse _ _ _ _ => op = Some OpQuery
  end.


(** * Properties *)

(** ** Numbers *)

Lemma gt_zero_truthy (x : number) : gt x zero = true -> truthy_number x = true.
Proof. destruct x as [[]|[]| |[] m e]; cbn; congruence. Qed.

Lemma usable_fee_gt (fee : number) :
  gt fee zero = true -> usable_fee (Some fee) = Some fee.
Proof.
  intros H. unfold usable_fee. now rewrite (gt_zero_truthy _ H), H.
Qed.

Lemma le_zero_not_gt (x : number) : le x zero = true -> gt x zero = false.
Proof. destruct x as [[]|[]| |[] m e]; cbn; congruence. Qed.

Lemma usable_fee_le (fee : number) :
  le fee zero = true -> usable_fee (Some fee) = None.
Proof.
  intros H. unfold usable_fee.
  rewrite (le_zero_not_gt _ H). now rewrite andb_false_r.
Qed.

Lemma usable_fee_Some (fallbackFee : option number) (fee : number) :
  usable_fee fallbackFee = Some fee ->
  fallbackFee = Some fee /\ gt fee zero = true.
Proof.
  destruct fallbackFee as [f|]; cbn; [|discriminate].
  destruct (truthy_number f); cbn; [|discriminate].
  destruct (gt f zero) eqn:E; [|discriminate].
  intros [= <-]. auto.
Qed.

(** ** The headers handed to the OpenAI client *)

Lemma prepareHeaders_lookup (headers : gmap string JsValue) (key : string) :
  prepareHeaders headers !! key = headers !! key ≫= as_header.
Proof.
  unfold prepareHeaders.
  apply (map_fold_weak_ind
           (fun (r : gmap string string) (m : gmap string JsValue) =>
              r !! key = m !! key ≫= as_header)).
  - now rewrite !lookup_empty.
  - intros i x m r Hi IH.
    destruct (decide (i = key)) as [->|Hne].
    + rewrite lookup_insert_eq. cbn.
      destruct x; cbn; rewrite ?lookup_insert_eq; try reflexivity;
        rewrite IH, Hi; reflexivity.
    + rewrite (lookup_insert_ne m) by assumption.
      destruct x; cbn; rewrite ?lookup_insert_ne by assumption; exact IH.
Qed.

(** ** Initialisation of the service object *)

(** [ensureInitialized] touches neither the world nor the trace: it lets
    the method go on, or throws the same error every time. *)
Lemma ensureInitialized_run (this : BrokerService.t) :
  (forall w t, BrokerService.ensureInitialized this w t = (Returned tt, t))
  \/ (exists e, forall w t,
         BrokerService.ensureInitialized this w t = (Thrown e, t)).
Proof.
  destruct this as [wl br ini pr].
  unfold BrokerService.ensureInitialized, bind; cbn.
  destruct ini; cbn.
  - destruct br as [[]|], wl; cbn; eauto.
  - destruct pr as [[[]|e]|]; cbn; eauto;
      destruct br as [[]|], wl; cbn; eauto.
Qed.

Lemma construct_ready (key : string) (w : World) (t0 : Trace)
      (this : BrokerService.t) (t1 : Trace) :
  BrokerService.construct (Some key) w t0 = (this, t1) ->
  BrokerService.initPromise this = Some (Ok tt) ->
  forall w' t, BrokerService.ensureInitialized this w' t = (Returned tt, t).
Proof.
  unfold BrokerService.construct.
  destruct (truthy_string key);
    [destruct (w_newWallet w t0 key) as [wl|e];
       [destruct (w_createBroker w _ wl) as [[]|e]|]|];
    intros [= <- <-]; cbn; try discriminate.
  reflexivity.
Qed.

(** ** Running a query step by step *)

(** A run of [sendQuery] is a short straight line with a branch at every
    call.  [exec] follows it in the hypothesis [H]: each call is split into
    the case where the world answers and the case where it throws. *)
Ltac unfold_query H :=
  unfold run, BrokerService.sendQuery, BrokerService.settleFee,
    Cli.sendQuery, Cli.settleFeeManually,
    inference_getServiceMetadata, inference_getRequestHeaders,
    chat_completions_create, inference_processResponse, inference_settleFee,
    first_choice_content, console, bind, try_catch, call, ret, throw in H;
  cbn beta iota zeta in H.

Ltac reduce_step H :=
  cbn beta iota zeta delta
      [response message Error TypeError_undefined_message] in H.

Ltac exec_step Hinit H :=
  match type of H with
  | context [BrokerService.ensureInitialized ?s ?w ?t] =>
      rewrite (Hinit w t) in H
  | context [match ?r with Ok _ => _ | Throw _ => _ end] =>
      let E := fresh "Hcall" in destruct r eqn:E
  | context [match choices ?c with [] => _ | _ :: _ => _ end] =>
      let E := fresh "Hchoices" in destruct (choices c) eqn:E
  | context [match usable_fee ?f with Some _ => _ | None => _ end] =>
      let E := fresh "Hfee" in destruct (usable_fee f) eqn:E
  | context [match response ?e with Some _ => _ | None => _ end] =>
      destruct (response e)
  end; reduce_step H.

Ltac exec Hinit H :=
  unfold_query H; reduce_step H; repeat exec_step Hinit H;
  injection H as <- <-; cbn [app] in *.

(** The hypotheses met at the leaves: a finite membership, an equation
    between two results. *)
Ltac leaf :=
  repeat (match goal with
         | H : False |- _ => destruct H
         | H : _ \/ _ |- _ => destruct H as [H|H]
         | H : In _ (_ :: _) |- _ => destruct H as [H|H]
         | H : In _ [] |- _ => destruct H
         | H : (_, _) = (_, _) |- _ => injection H as ? ?
         | H : _ :: _ = [] |- _ => discriminate H
         | H : [] = _ :: _ |- _ => discriminate H
         | H : Some _ = None |- _ => discriminate H
         | H : None = Some _ |- _ => discriminate H
         | H : Some _ = Some _ |- _ => injection H as ?
         | H : usable_fee (Some ?f) = _, G : gt ?f zero = true |- _ =>
             rewrite (usable_fee_gt _ G) in H
         | H : usable_fee (Some ?f) = _, G : le ?f zero = true |- _ =>
             rewrite (usable_fee_le _ G) in H
         | H : usable_fee None = _ |- _ => cbn in H
         | H : choices ?c = _, G : choices ?c = _ |- _ => rewrite H in G
         | H : Ok _ = Throw _ |- _ => discriminate H
         | H : Throw _ = Ok _ |- _ => discriminate H
         | H : Returned _ = Thrown _ |- _ => discriminate H
         | H : Thrown _ = Returned _ |- _ => discriminate H
         | H : Ok _ = Ok _ |- _ => injection H as ?
         | H : Throw _ = Throw _ |- _ => injection H as ?
         | H : Returned _ = Returned _ |- _ => injection H as ?
         | H : _ :: _ = _ :: _ |- _ => injection H as ? ?
         end; subst).

(** Membership in an explicit list. *)
Ltac member := solve [cbn; repeat (first [left; reflexivity | right])].

(** The metadata and the completion a run received, as witnesses. *)
Ltac received :=
  match goal with
  | Hm : w_getServiceMetadata _ _ _ = Ok ?md,
    Hc : choices ?completion = ?first :: ?rest |- _ =>
      exists md, completion, first, rest
  end.

(** A service object that failed to initialise makes no call at all. *)
Lemma sendQuery_not_initialized (this : BrokerService.t) (e : JsError)
      (providerAddress query : string) (fallbackFee : option number)
      (w : World) :
  (forall w t, BrokerService.ensureInitialized this w t = (Thrown e, t)) ->
  run (BrokerService.sendQuery this providerAddress query fallbackFee) w
  = (Thrown e, []).
Proof.
  intros Hinit. unfold run, BrokerService.sendQuery, bind.
  now rewrite Hinit.
Qed.

(** *** Automatic settlement went through *)

(** What a run looks like once [processResponse] has returned, whatever
    flag it returned. *)
Lemma sendQuery_after_processResponse
      (this : BrokerService.t) (w : World) (providerAddress query : string)
      (fallbackFee : option number)
      (out : Outcome BrokerService.QueryResult) (t : Trace)
      (p c i : string) (isValid : bool) :
  run (BrokerService.sendQuery this providerAddress query fallbackFee) w
  = (out, t) ->
  In (p, c, i, Ok isValid) (settlements t) ->
  exists md completion first rest,
    In (EvGetServiceMetadata providerAddress (Ok md)) t
    /\ responses t = [completion]
    /\ choices completion = first :: rest
    /\ (p, c, i) = (providerAddress,
                    content_or_empty (choice_content first),
                    completion_id completion)
    /\ out = Returned
               {| BrokerService.content := choice_content first;
                  BrokerService.metadata :=
                    BrokerService.Validated (model md) isValid
                                            providerAddress |}
    /\ fallbacks t = [].
Proof.
  intros Hrun Hin.
  destruct (ensureInitialized_run this) as [Hinit|[e0 Hinit]].
  - exec Hinit Hrun; cbn in Hin; leaf.
    received; cbn; repeat split; auto; member.
  - rewrite (sendQuery_not_initialized _ _ _ _ _ _ Hinit) in Hrun.
    injection Hrun as <- <-. destruct Hin.
Qed.

(** C2.  When the automatic settlement call [processResponse(provider,
    content, chatId)] succeeds, the result returned by
    [BrokerService.sendQuery] stands for the outcome [Verified], its
    content is the content of the inference response, unchanged, and no
    fallback settlement call is made. *)
Theorem sendQuery_verified
      (this : BrokerService.t) (w : World) (providerAddress query : string)
      (fallbackFee : option number)
      (out : Outcome BrokerService.QueryResult) (t : Trace)
      (p c i : string) (isValid : bool) :
  run (BrokerService.sendQuery this providerAddress query fallbackFee) w
  = (out, t) ->
  In (p, c, i, Ok isValid) (settlements t) ->
  exists completion first rest result,
    responses t = [completion]
    /\ choices completion = first :: rest
    /\ out = Returned result
    /\ paymentOutcome result = Verified
    /\ BrokerService.content result = choice_content first
    /\ fallbacks t = [].
Proof.
  intros Hrun Hin.
  destruct (sendQuery_after_processResponse _ _ _ _ _ _ _ _ _ _ _ Hrun Hin)
    as (md & completion & first & rest & _ & Hresp & Hch & _ & -> & Hfb).
  exists completion, first, rest. eexists. repeat split; eauto.
Qed.

Lemma sendQuery_verified_scenario_A :
  let r := run (BrokerService.sendQuery Scenario.service
                  "0xAAA" "Hello, AI!" None) Scenario.A in
  exists completion first rest result,
    responses (snd r) = [completion]
    /\ choices completion = first :: rest
    /\ fst r = Returned result
    /\ paymentOutcome result = Verified
    /\ BrokerService.content result = choice_content first
    /\ fallbacks (snd r) = [].
Proof.
  intros r.
  apply (sendQuery_verified Scenario.service Scenario.A
           "0xAAA" "Hello, AI!" None (fst r) (snd r)
           "0xAAA" "Hi there" "chat-1" true).
  - apply surjective_pairing.
  - vm_compute. left. reflexivity.
Defined.

(** Scenario A of the specification. *)
Example scenario_A :
  fst (run (BrokerService.sendQuery Scenario.service
              "0xAAA" "Hello, AI!" None) Scenario.A)
  = Returned {| BrokerService.content := Some "Hi there";
                BrokerService.metadata :=
                  BrokerService.Validated "llama-3" true "0xAAA" |}.
Proof. reflexivity. Qed.

(** C9.  When [processResponse] completes without throwing but returns
    [false], the query still succeeds with the content: [false] is reported
    as the flag [isValid] of the result (in the CLI, as the line
    [Response validity: Invalid]), and the fallback settlement is not
    called. *)
Theorem sendQuery_invalid_is_reported_not_failed
      (this : BrokerService.t) (w : World) (providerAddress query : string)
      (fallbackFee : option number) :
  (forall out t p c i,
      run (BrokerService.sendQuery this providerAddress query fallbackFee) w
      = (out, t) ->
      In (p, c, i, Ok false) (settlements t) ->
      exists md completion first rest,
        responses t = [completion]
        /\ choices completion = first :: rest
        /\ out = Returned
                   {| BrokerService.content := choice_content first;
                      BrokerService.metadata :=
                        BrokerService.Validated (model md) false
                                                providerAddress |}
        /\ fallbacks t = [])
  /\ (forall out t p c i,
         run (Cli.sendQuery providerAddress query fallbackFee) w = (out, t) ->
         In (p, c, i, Ok false) (settlements t) ->
         out = Returned tt
         /\ In (Log, [PStr "Response validity: Invalid"]) (printed t)
         /\ fallbacks t = []).
Proof.
  split.
  - intros out t p c i Hrun Hin.
    destruct (sendQuery_after_processResponse _ _ _ _ _ _ _ _ _ _ _ Hrun Hin)
      as (md & completion & first & rest & _ & Hresp & Hch & _ & -> & Hfb).
    exists md, completion, first, rest. auto.
  - intros out t p c i Hrun Hin.
    exec I Hrun; cbn in Hin; leaf.
    cbn. repeat split. member.
Qed.

Lemma sendQuery_invalid_scenario :
  (let r := run (BrokerService.sendQuery Scenario.service
                   "0xAAA" "Hello, AI!" (Some Scenario.fee_0_01))
                Scenario.invalid in
   exists md completion first rest,
     responses (snd r) = [completion]
     /\ choices completion = first :: rest
     /\ fst r = Returned
                  {| BrokerService.content := choice_content first;
                     BrokerService.metadata :=
                       BrokerService.Validated (model md) false "0xAAA" |}
     /\ fallbacks (snd r) = [])
  /\ (let r := run (Cli.sendQuery "0xAAA" "Hello, AI!"
                      (Some Scenario.fee_0_01)) Scenario.invalid in
      fst r = Returned tt
      /\ In (Log, [PStr "Response validity: Invalid"]) (printed (snd r))
      /\ fallbacks (snd r) = []).
Proof.
  pose proof (sendQuery_invalid_is_reported_not_failed
                Scenario.service Scenario.invalid "0xAAA" "Hello, AI!"
                (Some Scenario.fee_0_01)) as [Hrest Hcli].
  split; intros r.
  - apply (Hrest (fst r) (snd r) "0xAAA" "Hi there" "chat-1").
    + apply surjective_pairing.
    + vm_compute. left. reflexivity.
  - apply (Hcli (fst r) (snd r) "0xAAA" "Hi there" "chat-1").
    + apply surjective_pairing.
    + vm_compute. left. reflexivity.
Defined.

(** *** Automatic settlement threw *)

(** C3.  When automatic settlement fails and a fallback fee strictly
    greater than zero is given, the manual settlement [settleFee(provider,
    fallbackFee)] is called, once; if it succeeds, the result stands for
    [FallbackSettled] and carries the content of the inference response,
    unchanged. *)
Theorem sendQuery_fallback_settles
      (this : BrokerService.t) (w : World) (providerAddress query : string)
      (fee : number) :
  gt fee zero = true ->
  (forall out t p c i e,
      run (BrokerService.sendQuery this providerAddress query (Some fee)) w
      = (out, t) ->
      In (p, c, i, Throw e) (settlements t) ->
      exists md completion first rest r,
        responses t = [completion]
        /\ choices completion = first :: rest
        /\ fallbacks t = [(providerAddress, fee, r)]
        /\ (r = Ok tt ->
            exists result,
              out = Returned result
              /\ paymentOutcome result = FallbackSettled
              /\ BrokerService.content result = choice_content first
              /\ BrokerService.metadata result
                 = BrokerService.Fallback (model md) true fee
                                          providerAddress))
  /\ (forall out t p c i e,
         run (Cli.sendQuery providerAddress query (Some fee)) w = (out, t) ->
         In (p, c, i, Throw e) (settlements t) ->
         exists r, fallbacks t = [(providerAddress, fee, r)]
                   /\ out = Returned tt).
Proof.
  intros Hpositive. split.
  - intros out t p c i e Hrun Hin.
    destruct (ensureInitialized_run this) as [Hinit|[e0 Hinit]].
    + exec Hinit Hrun; cbn in Hin; leaf; received;
        eexists; cbn; (repeat split; eauto); intros; leaf;
        eexists; cbn; eauto.
    + rewrite (sendQuery_not_initialized _ _ _ _ _ _ Hinit) in Hrun.
      injection Hrun as <- <-. destruct Hin.
  - intros out t p c i e Hrun Hin.
    exec I Hrun; cbn in Hin; leaf; eexists; cbn; eauto.
Qed.

Lemma sendQuery_fallback_scenario_B :
  gt Scenario.fee_0_01 zero = true
  /\ (let r := run (BrokerService.sendQuery Scenario.service
                      "0xAAA" "Hello, AI!" (Some Scenario.fee_0_01))
                   Scenario.B in
      exists md completion first rest s,
        responses (snd r) = [completion]
        /\ choices completion = first :: rest
        /\ fallbacks (snd r) = [("0xAAA", Scenario.fee_0_01, s)]
        /\ (s = Ok tt ->
            exists result,
              fst r = Returned result
              /\ paymentOutcome result = FallbackSettled
              /\ BrokerService.content result = choice_content first
              /\ BrokerService.metadata result
                 = BrokerService.Fallback (model md) true
                                          Scenario.fee_0_01 "0xAAA"))
  /\ (let r := run (Cli.sendQuery "0xAAA" "Hello, AI!"
                      (Some Scenario.fee_0_01)) Scenario.B in
      exists s, fallbacks (snd r) = [("0xAAA", Scenario.fee_0_01, s)]
                /\ fst r = Returned tt).
Proof.
  assert (Hpositive : gt Scenario.fee_0_01 zero = true) by reflexivity.
  destruct (sendQuery_fallback_settles
              Scenario.service Scenario.B "0xAAA" "Hello, AI!"
              Scenario.fee_0_01 Hpositive) as [Hrest Hcli].
  split; [exact Hpositive|]. split; intros r.
  - apply (Hrest (fst r) (snd r) "0xAAA" "Hi there" "chat-1"
                 Scenario.stale_fee).
    + apply surjective_pairing.
    + vm_compute. left. reflexivity.
  - apply (Hcli (fst r) (snd r) "0xAAA" "Hi there" "chat-1"
                Scenario.stale_fee).
    + apply surjective_pairing.
    + vm_compute. left. reflexivity.
Defined.

(** Scenario B of the specification. *)
Example scenario_B :
  fst (run (BrokerService.sendQuery Scenario.service
              "0xAAA" "Hello, AI!" (Some Scenario.fee_0_01)) Scenario.B)
  = Returned {| BrokerService.content := Some "Hi there";
                BrokerService.metadata :=
                  BrokerService.Fallback "llama-3" true
                                         Scenario.fee_0_01 "0xAAA" |}.
Proof. reflexivity. Qed.

(** No result returned by the service stands for [Unsettled]. *)
Lemma paymentOutcome_settled (result : BrokerService.QueryResult) :
  paymentOutcome result <> Unsettled.
Proof. destruct result as [c []]; discriminate. Qed.

(** Scenario C of the specification, in the service: automatic settlement
    fails and no fallback fee is given.  The method throws; it does not
    return a result that stands for [Unsettled]. *)
Lemma sendQuery_scenario_C_throws :
  let r := run (BrokerService.sendQuery Scenario.service
                  "0xAAA" "Hello, AI!" None) Scenario.B in
  settlements (snd r)
  = [("0xAAA", "Hi there", "chat-1", Throw Scenario.stale_fee)]
  /\ fst r = Thrown (Error "Query failed: Payment processing failed: stale fee")
  /\ ~ (exists result,
           fst r = Returned result /\ paymentOutcome result = Unsettled).
Proof.
  cbv zeta. split; [reflexivity|]. split; [reflexivity|].
  intros (result & Hret & _). vm_compute in Hret. discriminate Hret.
Qed.

(** C4, as the code has it.  When automatic settlement fails and the
    fallback fee is absent or not greater than zero, the manual settlement
    is never called.  The service then throws [Query failed: Payment
    processing failed: ...] with the message of the broker; the CLI reports
    that the payment may not have been processed and returns. *)
Theorem sendQuery_without_fee_no_fallback
      (this : BrokerService.t) (w : World) (providerAddress query : string)
      (fallbackFee : option number) :
  fallbackFee = None
  \/ (exists fee, fallbackFee = Some fee /\ le fee zero = true) ->
  (forall out t p c i e,
      run (BrokerService.sendQuery this providerAddress query fallbackFee) w
      = (out, t) ->
      In (p, c, i, Throw e) (settlements t) ->
      out = Thrown (Error ("Query failed: Payment processing failed: "
                           +:+ message e))
      /\ fallbacks t = [])
  /\ (forall out t p c i e,
         run (Cli.sendQuery providerAddress query fallbackFee) w = (out, t) ->
         In (p, c, i, Throw e) (settlements t) ->
         out = Returned tt
         /\ fallbacks t = []
         /\ In (Log, [PStr "No fallback fee specified. Payment may not have been processed."])
               (printed t)).
Proof.
  intros Hfee. split.
  - intros out t p c i e Hrun Hin.
    destruct (ensureInitialized_run this) as [Hinit|[e0 Hinit]].
    + destruct Hfee as [->|(fee & -> & Hle)];
        exec Hinit Hrun; cbn in Hin; leaf; split; reflexivity.
    + rewrite (sendQuery_not_initialized _ _ _ _ _ _ Hinit) in Hrun.
      injection Hrun as <- <-. destruct Hin.
  - intros out t p c i e Hrun Hin.
    destruct Hfee as [->|(fee & -> & Hle)];
      exec I Hrun; cbn in Hin; leaf; cbn; repeat split; member.
Qed.

Lemma sendQuery_without_fee_scenario_C :
  (let r := run (BrokerService.sendQuery Scenario.service
                   "0xAAA" "Hello, AI!" None) Scenario.B in
   fst r = Thrown (Error ("Query failed: Payment processing failed: "
                          +:+ message Scenario.stale_fee))
   /\ fallbacks (snd r) = [])
  /\ (let r := run (Cli.sendQuery "0xAAA" "Hello, AI!" None) Scenario.B in
      fst r = Returned tt
      /\ fallbacks (snd r) = []
      /\ In (Log, [PStr "No fallback fee specified. Payment may not have been processed."])
            (printed (snd r))).
Proof.
  destruct (sendQuery_without_fee_no_fallback
              Scenario.service Scenario.B "0xAAA" "Hello, AI!" None
              (or_introl eq_refl)) as [Hrest Hcli].
  split; intros r.
  - apply (Hrest (fst r) (snd r) "0xAAA" "Hi there" "chat-1").
    + apply surjective_pairing.
    + vm_compute. left. reflexivity.
  - apply (Hcli (fst r) (snd r) "0xAAA" "Hi there" "chat-1"
                Scenario.stale_fee).
    + apply surjective_pairing.
    + vm_compute. left. reflexivity.
Defined.

(** A fee that is given but not positive is no fee either. *)
Example fallback_fee_minus_one :
  let r := run (BrokerService.sendQuery Scenario.service
                  "0xAAA" "Hello, AI!" (Some Scenario.minus_one))
               Scenario.B in
  fallbacks (snd r) = []
  /\ fst r = Thrown (Error "Query failed: Payment processing failed: stale fee").
Proof. split; reflexivity. Qed.

(** *** What becomes of the content *)

(** A query whose two settlements both fail: the service throws, and the
    answer it had received is not part of what the caller gets. *)
Lemma sendQuery_content_lost_when_unsettled :
  let r := run (BrokerService.sendQuery Scenario.service
                  "0xAAA" "Hello, AI!" (Some Scenario.fee_0_01))
               Scenario.B_failing in
  responses (snd r) = [Scenario.completion "chat-1" (Some "Hi there")]
  /\ fst r = Thrown (Error "Query failed: Failed to settle fee: insufficient balance")
  /\ ~ (exists result,
           fst r = Returned result
           /\ BrokerService.content result = Some "Hi there").
Proof.
  cbv zeta. split; [reflexivity|]. split; [reflexivity|].
  intros (result & Hret & _). vm_compute in Hret. discriminate Hret.
Qed.

(** C1, as the code has it.  Every result the service returns carries the
    content of the first choice of the response it received, unchanged
    (the result has no field for the response identifier).  When the
    payment ends unsettled, that is when the automatic settlement threw
    and the manual settlement was not called or threw as well, the service
    returns no result: it throws [Query failed: ...], with the message of
    the settlement that failed last.  The CLI prints the content in every
    run in which the response was received, whatever becomes of the
    payment, and returns normally. *)
Theorem sendQuery_content_preserved
      (this : BrokerService.t) (w : World) (providerAddress query : string)
      (fallbackFee : option number) :
  (forall result t,
      run (BrokerService.sendQuery this providerAddress query fallbackFee) w
      = (Returned result, t) ->
      exists completion first rest,
        responses t = [completion]
        /\ choices completion = first :: rest
        /\ BrokerService.content result = choice_content first)
  /\ (forall out t p c i e1,
         run (BrokerService.sendQuery this providerAddress query fallbackFee)
             w
         = (out, t) ->
         In (p, c, i, Throw e1) (settlements t) ->
         (fallbacks t = [] ->
          out = Thrown (Error ("Query failed: Payment processing failed: "
                               +:+ message e1)))
         /\ (forall p' fee e2,
                In (p', fee, Throw e2) (fallbacks t) ->
                out = Thrown (Error ("Query failed: Failed to settle fee: "
                                     +:+ message e2)))
         /\ (fallbacks t = []
             \/ (exists p' fee e2, In (p', fee, Throw e2) (fallbacks t)) ->
             forall result, out <> Returned result))
  /\ (forall out t completion first rest,
         run (Cli.sendQuery providerAddress query fallbackFee) w = (out, t) ->
         In completion (responses t) ->
         choices completion = first :: rest ->
         out = Returned tt
         /\ In (Log, [PContent (choice_content first)]) (printed t)).
Proof.
  split; [|split].
  - intros result t Hrun.
    remember (Returned result) as out eqn:Hout.
    destruct (ensureInitialized_run this) as [Hinit|[e0 Hinit]].
    + exec Hinit Hrun; leaf;
        match goal with
        | Hc : choices ?completion = ?first :: ?rest |- _ =>
            exists completion, first, rest
        end; cbn; auto.
    + rewrite (sendQuery_not_initialized _ _ _ _ _ _ Hinit) in Hrun.
      injection Hrun as <- <-. discriminate Hout.
  - intros out t p c i e1 Hrun Hin.
    destruct (ensureInitialized_run this) as [Hinit|[e0 Hinit]].
    + exec Hinit Hrun; cbn in Hin; leaf;
        (split; [intros Hnone; cbn in Hnone; leaf; reflexivity|]);
        (split; [intros p' fee e2 Hfb; cbn in Hfb; leaf; reflexivity|]);
        intros [Hnone|(p' & fee & e2 & Hfb)] result Hout;
        cbn in *; leaf.
    + rewrite (sendQuery_not_initialized _ _ _ _ _ _ Hinit) in Hrun.
      injection Hrun as <- <-. destruct Hin.
  - intros out t completion first rest Hrun Hin Hch.
    exec I Hrun; cbn in Hin; leaf; split; solve [reflexivity | member].
Qed.

Lemma sendQuery_content_preserved_scenario_B :
  (let r := run (BrokerService.sendQuery Scenario.service
                   "0xAAA" "Hello, AI!" (Some Scenario.fee_0_01))
                Scenario.B in
   exists completion first rest,
     responses (snd r) = [completion]
     /\ choices completion = first :: rest
     /\ Some "Hi there" = choice_content first)
  /\ (let r := run (BrokerService.sendQuery Scenario.service
                      "0xAAA" "Hello, AI!" None) Scenario.B in
      fst r = Thrown (Error ("Query failed: Payment processing failed: "
                             +:+ message Scenario.stale_fee))
      /\ forall result, fst r <> Returned result)
  /\ (let r := run (BrokerService.sendQuery Scenario.service
                      "0xAAA" "Hello, AI!" (Some Scenario.fee_0_01))
                   Scenario.B_failing in
      fst r = Thrown (Error ("Query failed: Failed to settle fee: "
                             +:+ "insufficient balance"))
      /\ forall result, fst r <> Returned result)
  /\ (let r := run (Cli.sendQuery "0xAAA" "Hello, AI!" None)
                   Scenario.B_failing in
      fst r = Returned tt
      /\ In (Log, [PContent (Some "Hi there")]) (printed (snd r))).
Proof.
  destruct (sendQuery_content_preserved
              Scenario.service Scenario.B "0xAAA" "Hello, AI!"
              (Some Scenario.fee_0_01)) as (Hrest & _ & _).
  destruct (sendQuery_content_preserved
              Scenario.service Scenario.B "0xAAA" "Hello, AI!" None)
    as (_ & Hnone & _).
  destruct (sendQuery_content_preserved
              Scenario.service Scenario.B_failing "0xAAA" "Hello, AI!"
              (Some Scenario.fee_0_01)) as (_ & Hboth & _).
  destruct (sendQuery_content_preserved
              Scenario.service Scenario.B_failing "0xAAA" "Hello, AI!"
              None) as (_ & _ & Hcli).
  split; [|split; [|split]]; intros r.
  - apply (Hrest {| BrokerService.content := Some "Hi there";
                    BrokerService.metadata :=
                      BrokerService.Fallback "llama-3" true
                                             Scenario.fee_0_01 "0xAAA" |}
                 (snd r)).
    reflexivity.
  - destruct (Hnone (fst r) (snd r) "0xAAA" "Hi there" "chat-1"
                    Scenario.stale_fee (surjective_pairing _))
      as (Hthrown & _ & Hnot).
    + vm_compute. left. reflexivity.
    + split; [apply Hthrown; reflexivity|apply Hnot; left; reflexivity].
  - destruct (Hboth (fst r) (snd r) "0xAAA" "Hi there" "chat-1"
                    Scenario.stale_fee (surjective_pairing _))
      as (_ & Hthrown & Hnot).
    + vm_compute. left. reflexivity.
    + split.
      * apply (Hthrown "0xAAA" Scenario.fee_0_01
                       (Error "insufficient balance")).
        vm_compute. left. reflexivity.
      * apply Hnot. right.
        exists "0xAAA", Scenario.fee_0_01, (Error "insufficient balance").
        vm_compute. left. reflexivity.
  - apply (Hcli (fst r) (snd r)
                (Scenario.completion "chat-1" (Some "Hi there"))
                {| choice_content := Some "Hi there" |} []).
    + apply surjective_pairing.
    + vm_compute. left. reflexivity.
    + reflexivity.
Defined.

(** *** The response identifier is not looked at *)

(** A response with an empty identifier is settled like any other:
    [processResponse] is called, with the empty string as identifier. *)
Lemma sendQuery_empty_id_is_settled :
  let r := run (BrokerService.sendQuery Scenario.service
                  "0xAAA" "Hello, AI!" None) Scenario.empty_id in
  responses (snd r) = [Scenario.completion "" (Some "Hi there")]
  /\ settlements (snd r) = [("0xAAA", "Hi there", "", Ok true)]
  /\ settlements (snd (run (Cli.sendQuery "0xAAA" "Hello, AI!" None)
                           Scenario.empty_id))
     = [("0xAAA", "Hi there", "", Ok true)].
Proof. cbv zeta. repeat split; reflexivity. Qed.

(** C5, as the code has it.  Once a response with a first choice has been
    received, [processResponse(provider, content || "", completion.id)] is
    called, exactly once, whatever the identifier is; in particular it is
    called with an empty identifier.  The fallback-or-unsettled branch is
    entered only if that call throws: when it returns, no manual
    settlement is called, the service returns its result, and the CLI
    prints neither the settlement error nor the missing-fee warning. *)
Theorem sendQuery_always_settles
      (this : BrokerService.t) (w : World) (providerAddress query : string)
      (fallbackFee : option number) :
  (forall out t completion first rest,
      run (BrokerService.sendQuery this providerAddress query fallbackFee) w
      = (out, t) ->
      In completion (responses t) ->
      choices completion = first :: rest ->
      exists r,
        settlements t = [(providerAddress,
                          content_or_empty (choice_content first),
                          completion_id completion, r)]
        /\ (forall isValid,
               r = Ok isValid ->
               fallbacks t = []
               /\ exists result, out = Returned result)
        /\ (fallbacks t <> [] -> exists e, r = Throw e)
        /\ (forall e', out = Thrown e' -> exists e, r = Throw e))
  /\ (forall out t completion first rest,
         run (Cli.sendQuery providerAddress query fallbackFee) w = (out, t) ->
         In completion (responses t) ->
         choices completion = first :: rest ->
         exists r,
           settlements t = [(providerAddress,
                             content_or_empty (choice_content first),
                             completion_id completion, r)]
           /\ (forall isValid,
                  r = Ok isValid ->
                  fallbacks t = []
                  /\ (forall text,
                         ~ In (Log, [PStr "Error processing response:";
                                     PStr text]) (printed t))
                  /\ ~ In (Log, [PStr "No fallback fee specified. Payment may not have been processed."])
                          (printed t))
           /\ (fallbacks t <> [] -> exists e, r = Throw e)).
Proof.
  split.
  - intros out t completion first rest Hrun Hin Hch.
    destruct (ensureInitialized_run this) as [Hinit|[e0 Hinit]].
    + exec Hinit Hrun; cbn in Hin; leaf; eexists;
        (split; [reflexivity|]);
        (split; [intros isValid Hr; leaf; cbn; eauto|]);
        (split; [intros Hfb; cbn in Hfb; try congruence; eauto|]);
        intros e' Hout; leaf; eauto.
    + rewrite (sendQuery_not_initialized _ _ _ _ _ _ Hinit) in Hrun.
      injection Hrun as <- <-. destruct Hin.
  - intros out t completion first rest Hrun Hin Hch.
    exec I Hrun; cbn in Hin; leaf; eexists;
      (split; [reflexivity|]);
      (split; [|intros Hfb; cbn in Hfb; try congruence; eauto]);
      intros isValid Hr; leaf; cbn;
      (split; [reflexivity|]); split; unfold not; intros; leaf;
      discriminate.
Qed.

Lemma sendQuery_always_settles_empty_id :
  (let r := run (BrokerService.sendQuery Scenario.service
                   "0xAAA" "Hello, AI!" None) Scenario.empty_id in
   exists s,
     settlements (snd r) = [("0xAAA", "Hi there", "", s)]
     /\ (forall isValid,
            s = Ok isValid ->
            fallbacks (snd r) = []
            /\ exists result, fst r = Returned result)
     /\ (fallbacks (snd r) <> [] -> exists e, s = Throw e)
     /\ (forall e', fst r = Thrown e' -> exists e, s = Throw e))
  /\ (let r := run (Cli.sendQuery "0xAAA" "Hello, AI!" None)
                   Scenario.empty_id in
      exists s,
        settlements (snd r) = [("0xAAA", "Hi there", "", s)]
        /\ (forall isValid,
               s = Ok isValid ->
               fallbacks (snd r) = []
               /\ (forall text,
                      ~ In (Log, [PStr "Error processing response:";
                                  PStr text]) (printed (snd r)))
               /\ ~ In (Log, [PStr "No fallback fee specified. Payment may not have been processed."])
                       (printed (snd r)))
        /\ (fallbacks (snd r) <> [] -> exists e, s = Throw e)).
Proof.
  destruct (sendQuery_always_settles
              Scenario.service Scenario.empty_id "0xAAA" "Hello, AI!" None)
    as [Hrest Hcli].
  split; intros r.
  - apply (Hrest (fst r) (snd r)
                 (Scenario.completion "" (Some "Hi there"))
                 {| choice_content := Some "Hi there" |} []).
    + apply surjective_pairing.
    + vm_compute. left. reflexivity.
    + reflexivity.
  - apply (Hcli (fst r) (snd r)
                (Scenario.completion "" (Some "Hi there"))
                {| choice_content := Some "Hi there" |} []).
    + apply surjective_pairing.
    + vm_compute. left. reflexivity.
    + reflexivity.
Defined.

(** *** A response without content, a response without choice *)

(** C10.  When the content of the response is absent ([null]),
    [processResponse] receives the empty string in its place, while the
    result returned to the caller (in the CLI, the line printed) keeps the
    absent value. *)
Theorem sendQuery_null_content
      (this : BrokerService.t) (w : World) (providerAddress query : string)
      (fallbackFee : option number) :
  (forall out t completion rest,
      run (BrokerService.sendQuery this providerAddress query fallbackFee) w
      = (out, t) ->
      In completion (responses t) ->
      choices completion = {| choice_content := None |} :: rest ->
      exists r,
        settlements t
        = [(providerAddress, "", completion_id completion, r)]
        /\ (forall result,
               out = Returned result ->
               BrokerService.content result = None)
        /\ (forall isValid,
               r = Ok isValid ->
               exists result,
                 out = Returned result
                 /\ BrokerService.content result = None))
  /\ (forall out t completion rest,
         run (Cli.sendQuery providerAddress query fallbackFee) w = (out, t) ->
         In completion (responses t) ->
         choices completion = {| choice_content := None |} :: rest ->
         exists r,
           settlements t
           = [(providerAddress, "", completion_id completion, r)]
           /\ In (Log, [PContent None]) (printed t)).
Proof.
  split.
  - intros out t completion rest Hrun Hin Hch.
    destruct (ensureInitialized_run this) as [Hinit|[e0 Hinit]].
    + exec Hinit Hrun; cbn in Hin; leaf; eexists;
        (split; [reflexivity|]); split; intros; leaf; eauto.
    + rewrite (sendQuery_not_initialized _ _ _ _ _ _ Hinit) in Hrun.
      injection Hrun as <- <-. destruct Hin.
  - intros out t completion rest Hrun Hin Hch.
    exec I Hrun; cbn in Hin; leaf; eexists;
      (split; [reflexivity|]); member.
Qed.

Lemma sendQuery_null_content_scenario :
  (let r := run (BrokerService.sendQuery Scenario.service
                   "0xAAA" "Hello, AI!" None) Scenario.null_content in
   exists s,
     settlements (snd r) = [("0xAAA", "", "chat-1", s)]
     /\ (forall result,
            fst r = Returned result -> BrokerService.content result = None)
     /\ (forall isValid,
            s = Ok isValid ->
            exists result,
              fst r = Returned result
              /\ BrokerService.content result = None))
  /\ (let r := run (Cli.sendQuery "0xAAA" "Hello, AI!" None)
                   Scenario.null_content in
      exists s,
        settlements (snd r) = [("0xAAA", "", "chat-1", s)]
        /\ In (Log, [PContent None]) (printed (snd r))).
Proof.
  destruct (sendQuery_null_content
              Scenario.service Scenario.null_content
              "0xAAA" "Hello, AI!" None) as [Hrest Hcli].
  split; intros r.
  - apply (Hrest (fst r) (snd r) (Scenario.completion "chat-1" None) []).
    + apply surjective_pairing.
    + vm_compute. left. reflexivity.
    + reflexivity.
  - apply (Hcli (fst r) (snd r) (Scenario.completion "chat-1" None) []).
    + apply surjective_pairing.
    + vm_compute. left. reflexivity.
    + reflexivity.
Defined.

(** The empty string is sent for an empty content as well, and every other
    content is sent as it is. *)
Lemma content_or_empty_Some (s : string) : content_or_empty (Some s) = s.
Proof. now destruct s. Qed.

(** C8.  [completion.choices[0].message.content] is read without a guard:
    on a response whose list of choices is empty the read throws.  The
    service method then throws [Query failed: ...] instead of returning a
    result with an absent content; the CLI reports the error and prints no
    content.  No settlement is attempted. *)
Theorem sendQuery_empty_choices_throws
      (this : BrokerService.t) (w : World) (providerAddress query : string)
      (fallbackFee : option number) :
  (forall out t completion,
      run (BrokerService.sendQuery this providerAddress query fallbackFee) w
      = (out, t) ->
      In completion (responses t) ->
      choices completion = [] ->
      out = Thrown (Error ("Query failed: "
                           +:+ message TypeError_undefined_message))
      /\ settlements t = []
      /\ fallbacks t = [])
  /\ (forall out t completion,
         run (Cli.sendQuery providerAddress query fallbackFee) w = (out, t) ->
         In completion (responses t) ->
         choices completion = [] ->
         out = Returned tt
         /\ In (ErrorLog, [PStr "Error sending query:";
                           PStr (message TypeError_undefined_message)])
               (printed t)
         /\ (forall content, ~ In (Log, [PContent content]) (printed t))
         /\ settlements t = []
         /\ fallbacks t = []).
Proof.
  split.
  - intros out t completion Hrun Hin Hch.
    destruct (ensureInitialized_run this) as [Hinit|[e0 Hinit]].
    + exec Hinit Hrun; cbn in Hin; leaf. repeat split.
    + rewrite (sendQuery_not_initialized _ _ _ _ _ _ Hinit) in Hrun.
      injection Hrun as <- <-. destruct Hin.
  - intros out t completion Hrun Hin Hch.
    exec I Hrun; cbn in Hin; leaf.
    cbn. repeat split; try member.
    intros content Hprinted. leaf; discriminate.
Qed.

Lemma sendQuery_empty_choices_scenario :
  (let r := run (BrokerService.sendQuery Scenario.service
                   "0xAAA" "Hello, AI!" None) Scenario.empty_choices in
   fst r = Thrown (Error ("Query failed: "
                          +:+ message TypeError_undefined_message))
   /\ settlements (snd r) = []
   /\ fallbacks (snd r) = [])
  /\ (let r := run (Cli.sendQuery "0xAAA" "Hello, AI!" None)
                   Scenario.empty_choices in
      fst r = Returned tt
      /\ In (ErrorLog, [PStr "Error sending query:";
                        PStr (message TypeError_undefined_message)])
            (printed (snd r))
      /\ (forall content, ~ In (Log, [PContent content]) (printed (snd r)))
      /\ settlements (snd r) = []
      /\ fallbacks (snd r) = []).
Proof.
  destruct (sendQuery_empty_choices_throws
              Scenario.service Scenario.empty_choices
              "0xAAA" "Hello, AI!" None) as [Hrest Hcli].
  split; intros r.
  - apply (Hrest (fst r) (snd r) Scenario.no_choice).
    + apply surjective_pairing.
    + vm_compute. left. reflexivity.
    + reflexivity.
  - apply (Hcli (fst r) (snd r) Scenario.no_choice).
    + apply surjective_pairing.
    + vm_compute. left. reflexivity.
    + reflexivity.
Defined.

(** ** The inference request *)

(** When the broker issues only strings, they are handed on as issued. *)
Lemma prepareHeaders_verbatim (headers : gmap string JsValue) :
  (forall key value,
      headers !! key = Some value -> typeof_is_string value = true) ->
  JString <$> prepareHeaders headers = headers.
Proof.
  intros Hstrings. apply map_eq. intros key.
  rewrite lookup_fmap, prepareHeaders_lookup.
  destruct (headers !! key) as [value|] eqn:Hkey; [|reflexivity].
  specialize (Hstrings key value Hkey).
  destruct value; cbn in *; congruence.
Qed.

(** What the [typeof] guard is for.  Request headers are strings; were an
    entry handed over without a string value, the request would go out
    without it. *)
Lemma sendQuery_drops_header_without_string :
  let r := run (BrokerService.sendQuery Scenario.service
                  "0xAAA" "Hello, AI!" None) Scenario.gap in
  issued (snd r) = [Scenario.issued_with_gap]
  /\ Scenario.issued_with_gap !! "Nonce" = Some JUndefined
  /\ map (fun request => snd request !! "Nonce") (requests (snd r)) = [None]
  /\ map (fun request => snd request !! "Address") (requests (snd r))
     = [Some "0xW"].
Proof. cbv zeta. repeat split; vm_compute; reflexivity. Qed.

(** The request whatever the broker hands over.  The inference request
    goes to the resolved endpoint, carries exactly one message, of role
    [user] and with the query as content, names the model of the resolved
    metadata, and attaches the issued entries whose value is a string,
    each unchanged, and nothing else; the [typeof] guard leaves out an
    entry whose value is not a string.  When every issued value is a
    string, the headers attached are the headers issued. *)
Theorem sendQuery_request
      (this : BrokerService.t) (w : World) (providerAddress query : string)
      (fallbackFee : option number) :
  (forall out t baseURL apiKey body attached,
      run (BrokerService.sendQuery this providerAddress query fallbackFee) w
      = (out, t) ->
      In (baseURL, apiKey, body, attached) (requests t) ->
      exists md headers,
        resolved t = [md]
        /\ issued t = [headers]
        /\ requests t = [(baseURL, apiKey, body, attached)]
        /\ baseURL = endpoint md
        /\ body = {| messages := [ {| role := "user";
                                      msg_content := query |} ];
                     req_model := model md |}
        /\ (forall key, attached !! key = headers !! key ≫= as_header)
        /\ ((forall key value,
                headers !! key = Some value ->
                typeof_is_string value = true) ->
            JString <$> attached = headers))
  /\ (forall out t baseURL apiKey body attached,
         run (Cli.sendQuery providerAddress query fallbackFee) w = (out, t) ->
         In (baseURL, apiKey, body, attached) (requests t) ->
         exists md headers,
           resolved t = [md]
           /\ issued t = [headers]
           /\ requests t = [(baseURL, apiKey, body, attached)]
           /\ baseURL = endpoint md
           /\ body = {| messages := [ {| role := "user";
                                         msg_content := query |} ];
                        req_model := model md |}
           /\ (forall key, attached !! key = headers !! key ≫= as_header)
           /\ ((forall key value,
                   headers !! key = Some value ->
                   typeof_is_string value = true) ->
               JString <$> attached = headers)).
Proof.
  split.
  - intros out t baseURL apiKey body attached Hrun Hin.
    destruct (ensureInitialized_run this) as [Hinit|[e0 Hinit]].
    + exec Hinit Hrun; cbn in Hin; leaf;
        do 2 eexists; cbn;
        repeat split; auto using prepareHeaders_lookup,
                        prepareHeaders_verbatim.
    + rewrite (sendQuery_not_initialized _ _ _ _ _ _ Hinit) in Hrun.
      injection Hrun as <- <-. destruct Hin.
  - intros out t baseURL apiKey body attached Hrun Hin.
    exec I Hrun; cbn in Hin; leaf;
      do 2 eexists; cbn;
      repeat split; auto using prepareHeaders_lookup,
                      prepareHeaders_verbatim.
Qed.

Lemma sendQuery_request_scenario_A :
  (let r := run (BrokerService.sendQuery Scenario.service
                   "0xAAA" "Hello, AI!" None) Scenario.A in
   exists md headers,
     resolved (snd r) = [md]
     /\ issued (snd r) = [headers]
     /\ requests (snd r)
        = [(endpoint Scenario.metadata, "",
            {| messages := [ {| role := "user";
                                msg_content := "Hello, AI!" |} ];
               req_model := model Scenario.metadata |},
            prepareHeaders Scenario.issued)]
     /\ endpoint Scenario.metadata = endpoint md
     /\ {| messages := [ {| role := "user"; msg_content := "Hello, AI!" |} ];
           req_model := model Scenario.metadata |}
        = {| messages := [ {| role := "user";
                              msg_content := "Hello, AI!" |} ];
             req_model := model md |}
     /\ (forall key,
            prepareHeaders Scenario.issued !! key
            = headers !! key ≫= as_header)
     /\ ((forall key value,
             headers !! key = Some value ->
             typeof_is_string value = true) ->
         JString <$> prepareHeaders Scenario.issued = headers))
  /\ (let r := run (Cli.sendQuery "0xAAA" "Hello, AI!" None) Scenario.A in
      exists md headers,
        resolved (snd r) = [md]
        /\ issued (snd r) = [headers]
        /\ requests (snd r)
           = [(endpoint Scenario.metadata, "",
               {| messages := [ {| role := "user";
                                   msg_content := "Hello, AI!" |} ];
                  req_model := model Scenario.metadata |},
               prepareHeaders Scenario.issued)]
        /\ endpoint Scenario.metadata = endpoint md
        /\ {| messages := [ {| role := "user";
                               msg_content := "Hello, AI!" |} ];
              req_model := model Scenario.metadata |}
           = {| messages := [ {| role := "user";
                                 msg_content := "Hello, AI!" |} ];
                req_model := model md |}
        /\ (forall key,
               prepareHeaders Scenario.issued !! key
               = headers !! key ≫= as_header)
        /\ ((forall key value,
                headers !! key = Some value ->
                typeof_is_string value = true) ->
            JString <$> prepareHeaders Scenario.issued = headers)).
Proof.
  destruct (sendQuery_request
              Scenario.service Scenario.A "0xAAA" "Hello, AI!" None)
    as [Hrest Hcli].
  split; intros r.
  - apply (Hrest (fst r) (snd r)).
    + apply surjective_pairing.
    + left. reflexivity.
  - apply (Hcli (fst r) (snd r)).
    + apply surjective_pairing.
    + left. reflexivity.
Defined.




(** ** Deposits *)

(** *** Events a program can add to the trace *)

Section Emits.

Variable P : Event -> Prop.

Lemma emits_ret {A} (a : A) : emits P (ret a).
Proof. intros w t. exists []. cbn. now rewrite app_nil_r. Qed.

Lemma emits_throw {A} (e : JsError) : emits P (@throw A e).
Proof. intros w t. exists []. cbn. now rewrite app_nil_r. Qed.

Lemma emits_process_exit {A} (code : Z) : emits P (@process_exit A code).
Proof. intros w t. exists []. cbn. now rewrite app_nil_r. Qed.

Lemma emits_console (l : Level) (line : list Piece) :
  P (EvConsole l line) -> emits P (console l line).
Proof. intros H w t. exists [EvConsole l line]. cbn. auto. Qed.

Lemma emits_call {A} (ask : World -> Trace -> Result A)
      (ev : Result A -> Event) :
  (forall r, P (ev r)) -> emits P (call ask ev).
Proof. intros H w t. exists [ev (ask w t)]. cbn. auto. Qed.

Lemma emits_bind {A B} (m : M A) (k : A -> M B) :
  emits P m -> (forall a, emits P (k a)) -> emits P (bind m k).
Proof.
  intros Hm Hk w t. unfold bind.
  destruct (Hm w t) as (d1 & E1 & F1).
  destruct (m w t) as [[a|e|code] t1]; cbn in E1; subst t1;
    [|exists d1; auto..].
  destruct (Hk a w (t ++ d1)) as (d2 & E2 & F2).
  exists (d1 ++ d2). rewrite E2, app_assoc. split; [reflexivity|].
  apply Forall_app; auto.
Qed.

Lemma emits_try_catch {A} (m : M A) (h : JsError -> M A) :
  emits P m -> (forall e, emits P (h e)) -> emits P (try_catch m h).
Proof.
  intros Hm Hh w t. unfold try_catch.
  destruct (Hm w t) as (d1 & E1 & F1).
  destruct (m w t) as [[a|e|code] t1]; cbn in E1; subst t1;
    [exists d1; auto| |exists d1; auto].
  destruct (Hh e w (t ++ d1)) as (d2 & E2 & F2).
  exists (d1 ++ d2). rewrite E2, app_assoc. split; [reflexivity|].
  apply Forall_app; auto.
Qed.

(** From the empty history, every event of the trace satisfies [P]. *)
Lemma emits_run {A} (m : M A) (w : World) :
  emits P m -> Forall P (snd (run m w)).
Proof.
  intros H. destruct (H w []) as (d & E & F).
  unfold run. now rewrite E.
Qed.

End Emits.

Create HintDb emits.

#[local] Hint Resolve emits_ret emits_throw emits_process_exit : emits.

(** One step through the syntax of a program. *)
Ltac emits_step :=
  match goal with
  | |- emits _ (bind _ _) => apply emits_bind; [|intros ?]
  | |- emits _ (try_catch _ _) => apply emits_try_catch; [|intros ?]
  | |- emits _ (console _ _) => apply emits_console; reflexivity
  | |- emits _ (call _ _) => apply emits_call; intros ?; reflexivity
  | |- emits _ (match ?x with _ => _ end) => destruct x eqn:?
  | |- emits _ _ => solve [auto with emits]
  end.

Lemma checkBalance_emits : emits deposits_checked Cli.checkBalance.
Proof. unfold Cli.checkBalance, ledger_getLedger. repeat emits_step. Qed.

#[local] Hint Resolve checkBalance_emits : emits.

(** The deposit itself is the one place where the amount matters. *)
Lemma depositFunds_emits (amount : number) :
  negb (isNaN amount) && gt amount zero = true ->
  emits deposits_checked (Cli.depositFunds amount).
Proof.
  intros Hamount. unfold Cli.depositFunds, ledger_depositFund.
  apply emits_try_catch; [|intros ?; repeat emits_step].
  apply emits_bind; [repeat emits_step|intros _].
  apply emits_bind; [|intros _; repeat emits_step].
  apply emits_call. intros r. exact Hamount.
Qed.

Lemma addFundsToLedger_emits (amount : number) :
  emits deposits_checked (Cli.addFundsToLedger amount).
Proof.
  unfold Cli.addFundsToLedger, ledger_addLedger. repeat emits_step.
Qed.

Lemma print_services_emits (services : list Service) (index : nat) :
  emits deposits_checked (Cli.print_services index services).
Proof.
  revert index. induction services as [|service rest IH]; intros index; cbn.
  - apply emits_ret.
  - repeat (apply emits_bind; [repeat emits_step|intros _]). apply IH.
Qed.

#[local] Hint Resolve print_services_emits : emits.

Lemma listServices_emits : emits deposits_checked Cli.listServices.
Proof.
  unfold Cli.listServices, inference_listService. repeat emits_step.
Qed.

Lemma settleFeeManually_emits (providerAddress : string) (fee : number) :
  emits deposits_checked (Cli.settleFeeManually providerAddress fee).
Proof.
  unfold Cli.settleFeeManually, inference_settleFee. repeat emits_step.
Qed.

#[local] Hint Resolve settleFeeManually_emits : emits.

Lemma sendQuery_emits (providerAddress query : string)
      (fallbackFee : option number) :
  emits deposits_checked (Cli.sendQuery providerAddress query fallbackFee).
Proof.
  unfold Cli.sendQuery, inference_getServiceMetadata,
    inference_getRequestHeaders, chat_completions_create,
    inference_processResponse, first_choice_content.
  repeat emits_step.
Qed.

Lemma initializeWalletAndBroker_emits (privateKey : string) :
  emits deposits_checked (Cli.initializeWalletAndBroker privateKey).
Proof.
  unfold Cli.initializeWalletAndBroker, newWallet,
    createZGComputeNetworkBroker.
  repeat emits_step.
Qed.

#[local] Hint Resolve addFundsToLedger_emits listServices_emits
  sendQuery_emits initializeWalletAndBroker_emits depositFunds_emits : emits.

Lemma main_emits (parseFloat : string -> number) (argv : list string)
      (PRIVATE_KEY : option string) :
  emits deposits_checked (Cli.main parseFloat argv PRIVATE_KEY).
Proof.
  unfold Cli.main, Cli.showHelp. cbv zeta. repeat emits_step.
Qed.

Lemma deposits_checked_positive (t : Trace) (amount : number) :
  Forall deposits_checked t ->
  In amount (deposits t) ->
  isNaN amount = false /\ gt amount zero = true.
Proof.
  induction 1 as [|e t He Ht IH]; cbn; [tauto|].
  destruct e; cbn; auto.
  intros [<-|Hin]; auto.
  unfold deposits_checked in He. cbn in He.
  apply andb_true_iff in He as [Hnan Hgt].
  apply negb_true_iff in Hnan. auto.
Qed.

(** *** The service method *)

(** [BrokerService.depositFunds] hands its argument to the broker as it
    is: once the service is initialised, [depositFund(amount)] is the one
    event of the run, for every amount. *)
Lemma depositFunds_forwards (this : BrokerService.t) (amount : number)
      (w : World) :
  (forall w t, BrokerService.ensureInitialized this w t = (Returned tt, t)) ->
  deposits (snd (run (BrokerService.depositFunds this amount) w)) = [amount].
Proof.
  intros Hinit.
  unfold run, BrokerService.depositFunds, ledger_depositFund, bind,
    try_catch, call.
  rewrite Hinit. cbn.
  destruct (w_depositFund w [] amount); reflexivity.
Qed.

(** Scenario D of the specification, on the service: a deposit of zero
    reaches the broker, and the method reports success. *)
Lemma depositFunds_zero_reaches_broker :
  run (BrokerService.depositFunds Scenario.service zero) Scenario.A
  = (Returned "Deposit successful", [EvDepositFund zero (Ok tt)]).
Proof. reflexivity. Qed.

(** *** The command line *)

Lemma invalid_amount (amount : number) :
  isNaN amount = true \/ le amount zero = true ->
  negb (isNaN amount) && gt amount zero = false.
Proof.
  intros [Hnan|Hle].
  - now rewrite Hnan.
  - rewrite (le_zero_not_gt _ Hle). apply andb_false_r.
Qed.

Ltac unfold_main H :=
  unfold run, Cli.main, Cli.initializeWalletAndBroker, Cli.showHelp,
    newWallet, createZGComputeNetworkBroker,
    console, bind, try_catch, call, ret, throw, process_exit in H;
  cbn beta iota zeta in H.

Ltac main_step H :=
  match type of H with
  | context [match ?r with Ok _ => _ | Throw _ => _ end] =>
      let E := fresh "Hcall" in destruct r eqn:E
  | context [match Cli.flag ?f "privateKey" with Some _ => _ | None => _ end] =>
      destruct (Cli.flag f "privateKey")
  | context [match ?k with Some _ => _ | None => _ end] =>
      is_var k; destruct k
  | context [if truthy_string ?k then _ else _] =>
      destruct (truthy_string k)
  end; cbn beta iota zeta in H.

(** C6, as the code has it.  The amount is checked by the command line
    before the deposit operation is entered, not by the operation.  [main]
    never calls [depositFund] with an amount that is [NaN] or not greater
    than zero.  A deposit request with such an amount makes no deposit
    call and raises no error: once [main] has its broker it prints
    [Invalid deposit amount] as its last line and returns normally.  The
    service method [depositFunds] checks nothing: on an initialised service
    it hands every amount it is given to [depositFund]. *)
Theorem main_checks_deposit_amount
      (parseFloat : string -> number) (argv : list string)
      (PRIVATE_KEY : option string) (w : World) :
  (forall out t amount,
      run (Cli.main parseFloat argv PRIVATE_KEY) w = (out, t) ->
      In amount (deposits t) ->
      isNaN amount = false /\ gt amount zero = true)
  /\ (forall out t text,
         run (Cli.main parseFloat argv PRIVATE_KEY) w = (out, t) ->
         Cli.flag (Cli.parseArgs argv) "help" = None ->
         Cli.flag (Cli.parseArgs argv) "ls" = None ->
         Cli.flag (Cli.parseArgs argv) "depositFee" = Some text ->
         isNaN (parseFloat text) = true \/ le (parseFloat text) zero = true ->
         deposits t = []
         /\ (forall e, out <> Thrown e)
         /\ (forall wl,
                In (EvCreateBroker wl (Ok tt)) t ->
                out = Returned tt
                /\ last (printed t)
                   = Some (ErrorLog, [PStr "Invalid deposit amount"]))
         /\ (out = Returned tt ->
             In (ErrorLog, [PStr "Invalid deposit amount"]) (printed t)))
  /\ (forall this amount,
         BrokerService.ensureInitialized this w [] = (Returned tt, []) ->
         deposits (snd (run (BrokerService.depositFunds this amount) w))
         = [amount]).
Proof.
  split; [|split].
  - intros out t amount Hrun Hin.
    apply (deposits_checked_positive t); [|exact Hin].
    replace t with (snd (run (Cli.main parseFloat argv PRIVATE_KEY) w))
      by now rewrite Hrun.
    apply emits_run, main_emits.
  - intros out t text Hrun Hhelp Hls Hdeposit Hbad.
    apply invalid_amount in Hbad.
    unfold_main Hrun. rewrite Hhelp in Hrun.
    repeat main_step Hrun;
      rewrite ?Hls, ?Hdeposit, ?Hbad in Hrun; cbn beta iota zeta in Hrun;
      injection Hrun as <- <-; cbn;
      (split; [reflexivity|]);
      (split; [intros ?; discriminate|]);
      (split;
       [intros wl Hin;
        repeat (destruct Hin as [Hin|Hin]; [try discriminate Hin|]);
        try (destruct Hin);
        split; reflexivity
       |intros Hout; solve [discriminate Hout | member]]).
  - intros this amount Hinit.
    destruct (ensureInitialized_run this) as [Hok|[e He]].
    + apply depositFunds_forwards. exact Hok.
    + rewrite He in Hinit. discriminate Hinit.
Qed.

Lemma main_checks_deposit_amount_scenario_D :
  (let r := run (Cli.main Scenario.parseFloat
                   ["-k"; "key"; "-d"; "0.01"] None) Scenario.A in
   isNaN Scenario.fee_0_01 = false /\ gt Scenario.fee_0_01 zero = true)
  /\ (let r := run (Cli.main Scenario.parseFloat
                      ["-k"; "key"; "-d"; "0"] None) Scenario.A in
      deposits (snd r) = []
      /\ (forall e, fst r <> Thrown e)
      /\ (forall wl,
             In (EvCreateBroker wl (Ok tt)) (snd r) ->
             fst r = Returned tt
             /\ last (printed (snd r))
                = Some (ErrorLog, [PStr "Invalid deposit amount"]))
      /\ (fst r = Returned tt ->
          In (ErrorLog, [PStr "Invalid deposit amount"]) (printed (snd r))))
  /\ deposits (snd (run (BrokerService.depositFunds Scenario.service zero)
                        Scenario.A))
     = [zero].
Proof.
  split; [|split]; cbv zeta.
  - apply (proj1 (main_checks_deposit_amount
                    Scenario.parseFloat ["-k"; "key"; "-d"; "0.01"] None
                    Scenario.A) _ _ Scenario.fee_0_01
                 (surjective_pairing _)).
    vm_compute. left. reflexivity.
  - apply (proj1 (proj2 (main_checks_deposit_amount
                           Scenario.parseFloat ["-k"; "key"; "-d"; "0"] None
                           Scenario.A)) _ _ "0" (surjective_pairing _)).
    + vm_compute. reflexivity.
    + vm_compute. reflexivity.
    + vm_compute. reflexivity.
    + right. vm_compute. reflexivity.
  - apply (proj2 (proj2 (main_checks_deposit_amount
                           Scenario.parseFloat [] None Scenario.A))
                 Scenario.service zero).
    reflexivity.
Defined.

(** Scenario D of the specification, on the command line. *)
Example scenario_D :
  let r := run (Cli.main Scenario.parseFloat ["-k"; "key"; "-d"; "0"] None)
               Scenario.A in
  fst r = Returned tt
  /\ deposits (snd r) = []
  /\ last (printed (snd r)) = Some (ErrorLog, [PStr "Invalid deposit amount"]).
Proof. cbv zeta. repeat split; vm_compute; reflexivity. Qed.

(** * Further properties *)

(** ** The service object and its methods *)

Lemma ensureInitialized_passes (this : BrokerService.t) (w : World)
      (t t' : Trace) :
  BrokerService.ensureInitialized this w t = (Returned tt, t') ->
  forall w0 t0, BrokerService.ensureInitialized this w0 t0 = (Returned tt, t0).
Proof.
  intros H. destruct (ensureInitialized_run this) as [Hok|[e He]]; [exact Hok|].
  rewrite He in H. discriminate H.
Qed.

Lemma ensureInitialized_throws (this : BrokerService.t) (w : World)
      (t t' : Trace) (e : JsError) :
  BrokerService.ensureInitialized this w t = (Thrown e, t') ->
  forall w0 t0, BrokerService.ensureInitialized this w0 t0 = (Thrown e, t0).
Proof.
  intros H. destruct (ensureInitialized_run this) as [Hok|[e0 He]].
  - rewrite Hok in H. discriminate H.
  - rewrite He in H. injection H as -> _. exact He.
Qed.

(** X1.  [ensureInitialized] is called outside the [try] block of every
    method: on a service object whose initialisation failed, each method
    throws the initialisation error as it is, without the prefix of the
    method, and makes no call to the broker or the endpoint. *)
Theorem methods_rethrow_initialisation_error
      (this : BrokerService.t) (e : JsError) (w0 : World) (w : World)
      (amount : number) (providerAddress query : string)
      (fallbackFee : option number) :
  BrokerService.ensureInitialized this w0 [] = (Thrown e, []) ->
  run (BrokerService.depositFunds this amount) w = (Thrown e, [])
  /\ run (BrokerService.addFundsToLedger this amount) w = (Thrown e, [])
  /\ run (BrokerService.getBalance this) w = (Thrown e, [])
  /\ run (BrokerService.listServices this) w = (Thrown e, [])
  /\ run (BrokerService.settleFee this providerAddress amount) w
     = (Thrown e, [])
  /\ run (BrokerService.sendQuery this providerAddress query fallbackFee) w
     = (Thrown e, []).
Proof.
  intros H. pose proof (ensureInitialized_throws _ _ _ _ _ H) as Hinit.
  unfold run, BrokerService.depositFunds, BrokerService.addFundsToLedger,
    BrokerService.getBalance, BrokerService.listServices,
    BrokerService.settleFee, BrokerService.sendQuery, bind.
  rewrite !Hinit. repeat split.
Qed.

(** X2.  A service constructed without [PRIVATE_KEY] (unset or empty)
    never tries to create a wallet or a broker: the only event is the
    console error, and from then on [ensureInitialized] throws
    [PRIVATE_KEY is required in .env file]. *)
Theorem construct_without_key
      (PRIVATE_KEY : option string) (w : World) (t0 : Trace)
      (this : BrokerService.t) (t1 : Trace) :
  PRIVATE_KEY = None \/ PRIVATE_KEY = Some "" ->
  BrokerService.construct PRIVATE_KEY w t0 = (this, t1) ->
  t1 = t0 ++ [EvConsole ErrorLog
                [PStr "Failed to initialize broker service:";
                 PStr "PRIVATE_KEY is required in .env file"]]
  /\ BrokerService.initialized this = false
  /\ forall w' t,
       BrokerService.ensureInitialized this w' t
       = (Thrown (Error "PRIVATE_KEY is required in .env file"), t).
Proof.
  intros [->| ->]; cbn; intros [= <- <-]; repeat split.
Qed.

Lemma construct_without_key_unset :
  let r := BrokerService.construct None Scenario.A [] in
  snd r = [] ++ [EvConsole ErrorLog
                   [PStr "Failed to initialize broker service:";
                    PStr "PRIVATE_KEY is required in .env file"]]
  /\ BrokerService.initialized (fst r) = false
  /\ forall w' t,
       BrokerService.ensureInitialized (fst r) w' t
       = (Thrown (Error "PRIVATE_KEY is required in .env file"), t).
Proof.
  intros r.
  apply (construct_without_key None Scenario.A [] (fst r) (snd r)).
  - left. reflexivity.
  - reflexivity.
Defined.

Lemma methods_rethrow_initialisation_error_unset_key :
  let this := fst (BrokerService.construct None Scenario.A []) in
  let e := Error "PRIVATE_KEY is required in .env file" in
  run (BrokerService.depositFunds this zero) Scenario.A = (Thrown e, [])
  /\ run (BrokerService.addFundsToLedger this zero) Scenario.A
     = (Thrown e, [])
  /\ run (BrokerService.getBalance this) Scenario.A = (Thrown e, [])
  /\ run (BrokerService.listServices this) Scenario.A = (Thrown e, [])
  /\ run (BrokerService.settleFee this "0xAAA" zero) Scenario.A
     = (Thrown e, [])
  /\ run (BrokerService.sendQuery this "0xAAA" "Hello, AI!" None) Scenario.A
     = (Thrown e, []).
Proof.
  intros this e.
  apply (methods_rethrow_initialisation_error
           this e Scenario.A Scenario.A zero "0xAAA" "Hello, AI!" None).
  reflexivity.
Defined.

(** X3.  Whatever the key and the world, a constructed service is in one
    of two states: initialised, with the wallet and the broker whose
    creation is on the trace, and then [ensureInitialized] lets every
    method go on; or failed, and then [ensureInitialized] throws the very
    error that [initialize] caught and logged. *)
Theorem construct_initialised_or_failed
      (PRIVATE_KEY : option string) (w : World) (t0 : Trace)
      (this : BrokerService.t) (t1 : Trace) :
  BrokerService.construct PRIVATE_KEY w t0 = (this, t1) ->
  (exists wl,
      BrokerService.wallet this = Some wl
      /\ BrokerService.initialized this = true
      /\ In (EvCreateBroker wl (Ok tt)) t1
      /\ forall w' t,
           BrokerService.ensureInitialized this w' t = (Returned tt, t))
  \/ (exists e,
         BrokerService.initPromise this = Some (Throw e)
         /\ BrokerService.initialized this = false
         /\ BrokerService.broker this = None
         /\ In (EvConsole ErrorLog
                  [PStr "Failed to initialize broker service:";
                   PStr (message e)]) t1
         /\ forall w' t,
              BrokerService.ensureInitialized this w' t = (Thrown e, t)).
Proof.
  unfold BrokerService.construct.
  destruct PRIVATE_KEY as [key|];
    [destruct (truthy_string key);
       [destruct (w_newWallet w t0 key) as [wl|e];
          [destruct (w_createBroker w _ wl) as [[]|e]|]|]|];
    intros [= <- <-].
  1: left; exists wl; cbn; repeat split;
       rewrite !in_app_iff; cbn; auto.
  all: right; eexists; cbn; repeat split;
         rewrite ?in_app_iff; cbn; auto.
Qed.

Lemma construct_initialised_or_failed_scenario :
  let r := BrokerService.construct (Some "key") Scenario.A [] in
  (exists wl,
      BrokerService.wallet (fst r) = Some wl
      /\ BrokerService.initialized (fst r) = true
      /\ In (EvCreateBroker wl (Ok tt)) (snd r)
      /\ forall w' t,
           BrokerService.ensureInitialized (fst r) w' t = (Returned tt, t))
  \/ (exists e,
         BrokerService.initPromise (fst r) = Some (Throw e)
         /\ BrokerService.initialized (fst r) = false
         /\ BrokerService.broker (fst r) = None
         /\ In (EvConsole ErrorLog
                  [PStr "Failed to initialize broker service:";
                   PStr (message e)]) (snd r)
         /\ forall w' t,
              BrokerService.ensureInitialized (fst r) w' t = (Thrown e, t)).
Proof.
  intros r.
  apply (construct_initialised_or_failed (Some "key") Scenario.A []).
  reflexivity.
Defined.

(** X4.  On an initialised service, [depositFunds], [addFundsToLedger] and
    [settleFee] make exactly one broker call, with the arguments they were
    given.  When the broker accepts, they return their fixed confirmation
    text; when it throws, they throw a fresh [Error] whose message is the
    broker's message behind the prefix of the method, and which carries
    nothing else of the broker's error. *)
Theorem service_ledger_methods
      (this : BrokerService.t) (w : World) (amount : number)
      (providerAddress : string) :
  BrokerService.ensureInitialized this w [] = (Returned tt, []) ->
  (exists r,
      run (BrokerService.depositFunds this amount) w
      = (match r with
         | Ok _ => Returned "Deposit successful"
         | Throw e =>
             Thrown {| message := "Failed to deposit funds: " +:+ message e;
                       response := None |}
         end, [EvDepositFund amount r]))
  /\ (exists r,
         run (BrokerService.addFundsToLedger this amount) w
         = (match r with
            | Ok _ => Returned "Funds added to ledger successfully"
            | Throw e =>
                Thrown {| message := "Failed to add funds to ledger: "
                                     +:+ message e;
                          response := None |}
            end, [EvAddLedger amount r]))
  /\ (exists r,
         run (BrokerService.settleFee this providerAddress amount) w
         = (match r with
            | Ok _ => Returned "Fee settled successfully"
            | Throw e =>
                Thrown {| message := "Failed to settle fee: " +:+ message e;
                          response := None |}
            end, [EvSettleFee providerAddress amount r])).
Proof.
  intros H. pose proof (ensureInitialized_passes _ _ _ _ H) as Hinit.
  unfold run, BrokerService.depositFunds, BrokerService.addFundsToLedger,
    BrokerService.settleFee, ledger_depositFund, ledger_addLedger,
    inference_settleFee, bind, try_catch, call, ret, throw.
  rewrite !Hinit. cbn.
  repeat split.
  - exists (w_depositFund w [] amount).
    destruct (w_depositFund w [] amount); reflexivity.
  - exists (w_addLedger w [] amount).
    destruct (w_addLedger w [] amount); reflexivity.
  - exists (w_settleFee w [] providerAddress amount).
    destruct (w_settleFee w [] providerAddress amount); reflexivity.
Qed.

Lemma service_ledger_methods_scenario :
  (exists r,
      run (BrokerService.depositFunds Scenario.service Scenario.fee_0_01)
          Scenario.B_failing
      = (match r with
         | Ok _ => Returned "Deposit successful"
         | Throw e =>
             Thrown {| message := "Failed to deposit funds: " +:+ message e;
                       response := None |}
         end, [EvDepositFund Scenario.fee_0_01 r]))
  /\ (exists r,
         run (BrokerService.addFundsToLedger Scenario.service
                Scenario.fee_0_01) Scenario.B_failing
         = (match r with
            | Ok _ => Returned "Funds added to ledger successfully"
            | Throw e =>
                Thrown {| message := "Failed to add funds to ledger: "
                                     +:+ message e;
                          response := None |}
            end, [EvAddLedger Scenario.fee_0_01 r]))
  /\ (exists r,
         run (BrokerService.settleFee Scenario.service "0xAAA"
                Scenario.fee_0_01) Scenario.B_failing
         = (match r with
            | Ok _ => Returned "Fee settled successfully"
            | Throw e =>
                Thrown {| message := "Failed to settle fee: " +:+ message e;
                          response := None |}
            end, [EvSettleFee "0xAAA" Scenario.fee_0_01 r])).
Proof.
  apply (service_ledger_methods Scenario.service Scenario.B_failing
           Scenario.fee_0_01 "0xAAA").
  reflexivity.
Defined.

(** X5.  Nothing is cached: two balance reads in a row are two
    [getLedger] calls, and each returns what the broker answered to it,
    the second answer being asked for with the first call in the history;
    the same holds for two service listings. *)
Theorem service_reads_are_fresh
      (this : BrokerService.t) (w : World) (b1 b2 : JsValue)
      (l1 l2 : list Service) :
  BrokerService.ensureInitialized this w [] = (Returned tt, []) ->
  w_getLedger w [] = Ok b1 ->
  w_getLedger w [EvGetLedger (Ok b1)] = Ok b2 ->
  w_listService w [] = Ok l1 ->
  w_listService w [EvListService (Ok l1)] = Ok l2 ->
  run (first <- BrokerService.getBalance this ;;
       second <- BrokerService.getBalance this ;;
       ret (first, second)) w
  = (Returned (b1, b2), [EvGetLedger (Ok b1); EvGetLedger (Ok b2)])
  /\ run (first <- BrokerService.listServices this ;;
          second <- BrokerService.listServices this ;;
          ret (first, second)) w
     = (Returned (l1, l2), [EvListService (Ok l1); EvListService (Ok l2)]).
Proof.
  intros H Hb1 Hb2 Hl1 Hl2.
  pose proof (ensureInitialized_passes _ _ _ _ H) as Hinit.
  unfold run, BrokerService.getBalance, BrokerService.listServices,
    ledger_getLedger, inference_listService, bind, try_catch, call, ret.
  rewrite !Hinit. cbn.
  rewrite Hb1, Hl1. cbn. rewrite !Hinit. cbn.
  rewrite Hb2, Hl2. split; reflexivity.
Qed.

Lemma service_reads_are_fresh_changing :
  run (first <- BrokerService.getBalance Scenario.service ;;
       second <- BrokerService.getBalance Scenario.service ;;
       ret (first, second)) Worlds.changing
  = (Returned (JString "1.0", JString "0.9"),
     [EvGetLedger (Ok (JString "1.0")); EvGetLedger (Ok (JString "0.9"))])
  /\ run (first <- BrokerService.listServices Scenario.service ;;
          second <- BrokerService.listServices Scenario.service ;;
          ret (first, second)) Worlds.changing
     = (Returned ([Worlds.a_service],
                  [Worlds.a_service; Worlds.another_service]),
        [EvListService (Ok [Worlds.a_service]);
         EvListService (Ok [Worlds.a_service; Worlds.another_service])]).
Proof.
  apply (service_reads_are_fresh Scenario.service Worlds.changing);
    reflexivity.
Defined.

(** ** The course of a query *)

Ltac prefix_of_stages :=
  solve [ exists 0; reflexivity | exists 1; reflexivity
        | exists 2; reflexivity | exists 3; reflexivity
        | exists 4; reflexivity | exists 5; reflexivity ].

(** X6.  A query calls the outside in one fixed order, each call at most
    once: service metadata, request headers, inference, automatic
    settlement, manual settlement.  The calls made are always a prefix of
    that list, and no other call (ledger, listing, wallet) is made. *)
Theorem sendQuery_stage_order
      (this : BrokerService.t) (w : World) (providerAddress query : string)
      (fallbackFee : option number) :
  (forall out t,
      run (BrokerService.sendQuery this providerAddress query fallbackFee) w
      = (out, t) ->
      (exists n, stages t = take n query_stages)
      /\ length (calls t) = length (stages t))
  /\ (forall out t,
         run (Cli.sendQuery providerAddress query fallbackFee) w = (out, t) ->
         (exists n, stages t = take n query_stages)
         /\ length (calls t) = length (stages t)).
Proof.
  split.
  - intros out t Hrun.
    destruct (ensureInitialized_run this) as [Hinit|[e0 Hinit]].
    + exec Hinit Hrun; (split; [prefix_of_stages|reflexivity]).
    + rewrite (sendQuery_not_initialized _ _ _ _ _ _ Hinit) in Hrun.
      injection Hrun as <- <-. split; [prefix_of_stages|reflexivity].
  - intros out t Hrun.
    exec I Hrun; (split; [prefix_of_stages|reflexivity]).
Qed.

Lemma sendQuery_stage_order_scenario_B :
  (let r := run (BrokerService.sendQuery Scenario.service
                   "0xAAA" "Hello, AI!" (Some Scenario.fee_0_01))
                Scenario.B in
   (exists n, stages (snd r) = take n query_stages)
   /\ length (calls (snd r)) = length (stages (snd r)))
  /\ (let r := run (Cli.sendQuery "0xAAA" "Hello, AI!"
                      (Some Scenario.fee_0_01)) Scenario.B in
      (exists n, stages (snd r) = take n query_stages)
      /\ length (calls (snd r)) = length (stages (snd r))).
Proof.
  destruct (sendQuery_stage_order
              Scenario.service Scenario.B "0xAAA" "Hello, AI!"
              (Some Scenario.fee_0_01)) as [Hrest Hcli].
  split; intros r.
  - apply (Hrest (fst r) (snd r)). apply surjective_pairing.
  - apply (Hcli (fst r) (snd r)). apply surjective_pairing.
Defined.

(** X7.  Settlement is attempted only for a response that was received
    and has a first choice: every [processResponse] call of a query is
    made with the provider of the query, the content of that first choice
    (or the empty string) and the identifier of that response. *)
Theorem sendQuery_settles_only_a_response
      (this : BrokerService.t) (w : World) (providerAddress query : string)
      (fallbackFee : option number) :
  (forall out t p c i r,
      run (BrokerService.sendQuery this providerAddress query fallbackFee) w
      = (out, t) ->
      In (p, c, i, r) (settlements t) ->
      exists completion first rest,
        responses t = [completion]
        /\ choices completion = first :: rest
        /\ (p, c, i) = (providerAddress,
                        content_or_empty (choice_content first),
                        completion_id completion))
  /\ (forall out t p c i r,
         run (Cli.sendQuery providerAddress query fallbackFee) w = (out, t) ->
         In (p, c, i, r) (settlements t) ->
         exists completion first rest,
           responses t = [completion]
           /\ choices completion = first :: rest
           /\ (p, c, i) = (providerAddress,
                           content_or_empty (choice_content first),
                           completion_id completion)).
Proof.
  split.
  - intros out t p c i r Hrun Hin.
    destruct (ensureInitialized_run this) as [Hinit|[e0 Hinit]].
    + exec Hinit Hrun; cbn in Hin; leaf;
        match goal with
        | Hc : choices ?completion = ?first :: ?rest |- _ =>
            exists completion, first, rest
        end; repeat split; assumption.
    + rewrite (sendQuery_not_initialized _ _ _ _ _ _ Hinit) in Hrun.
      injection Hrun as <- <-. destruct Hin.
  - intros out t p c i r Hrun Hin.
    exec I Hrun; cbn in Hin; leaf;
      match goal with
      | Hc : choices ?completion = ?first :: ?rest |- _ =>
          exists completion, first, rest
      end; repeat split; assumption.
Qed.

Lemma sendQuery_settles_only_a_response_scenario_A :
  (let r := run (BrokerService.sendQuery Scenario.service
                   "0xAAA" "Hello, AI!" None) Scenario.A in
   exists completion first rest,
     responses (snd r) = [completion]
     /\ choices completion = first :: rest
     /\ ("0xAAA", "Hi there", "chat-1")
        = ("0xAAA", content_or_empty (choice_content first),
           completion_id completion))
  /\ (let r := run (Cli.sendQuery "0xAAA" "Hello, AI!" None) Scenario.A in
      exists completion first rest,
        responses (snd r) = [completion]
        /\ choices completion = first :: rest
        /\ ("0xAAA", "Hi there", "chat-1")
           = ("0xAAA", content_or_empty (choice_content first),
              completion_id completion)).
Proof.
  destruct (sendQuery_settles_only_a_response
              Scenario.service Scenario.A "0xAAA" "Hello, AI!" None)
    as [Hrest Hcli].
  split; intros r.
  - apply (Hrest (fst r) (snd r) "0xAAA" "Hi there" "chat-1" (Ok true)).
    + apply surjective_pairing.
    + vm_compute. left. reflexivity.
  - apply (Hcli (fst r) (snd r) "0xAAA" "Hi there" "chat-1" (Ok true)).
    + apply surjective_pairing.
    + vm_compute. left. reflexivity.
Defined.

(** X8.  The manual settlement is called only as a fallback: every
    [settleFee] call of a query follows an automatic settlement that threw,
    is made for the provider of the query, and pays the fallback fee that
    was given, which is then strictly greater than zero. *)
Theorem sendQuery_fallback_only_after_failure
      (this : BrokerService.t) (w : World) (providerAddress query : string)
      (fallbackFee : option number) :
  (forall out t p fee r,
      run (BrokerService.sendQuery this providerAddress query fallbackFee) w
      = (out, t) ->
      In (p, fee, r) (fallbacks t) ->
      p = providerAddress
      /\ fallbackFee = Some fee
      /\ gt fee zero = true
      /\ exists c i e, settlements t = [(providerAddress, c, i, Throw e)])
  /\ (forall out t p fee r,
         run (Cli.sendQuery providerAddress query fallbackFee) w = (out, t) ->
         In (p, fee, r) (fallbacks t) ->
         p = providerAddress
         /\ fallbackFee = Some fee
         /\ gt fee zero = true
         /\ exists c i e, settlements t = [(providerAddress, c, i, Throw e)]).
Proof.
  split.
  - intros out t p fee r Hrun Hin.
    destruct (ensureInitialized_run this) as [Hinit|[e0 Hinit]].
    + exec Hinit Hrun; cbn in Hin; leaf;
        match goal with
        | Hf : usable_fee _ = Some _ |- _ =>
            apply usable_fee_Some in Hf; destruct Hf as [-> Hgt]
        end; cbn; eauto 10.
    + rewrite (sendQuery_not_initialized _ _ _ _ _ _ Hinit) in Hrun.
      injection Hrun as <- <-. destruct Hin.
  - intros out t p fee r Hrun Hin.
    exec I Hrun; cbn in Hin; leaf;
      match goal with
      | Hf : usable_fee _ = Some _ |- _ =>
          apply usable_fee_Some in Hf; destruct Hf as [-> Hgt]
      end; cbn; eauto 10.
Qed.

Lemma sendQuery_fallback_only_after_failure_scenario_B :
  (let r := run (BrokerService.sendQuery Scenario.service
                   "0xAAA" "Hello, AI!" (Some Scenario.fee_0_01))
                Scenario.B in
   "0xAAA" = "0xAAA"
   /\ Some Scenario.fee_0_01 = Some Scenario.fee_0_01
   /\ gt Scenario.fee_0_01 zero = true
   /\ exists c i e, settlements (snd r) = [("0xAAA", c, i, Throw e)])
  /\ (let r := run (Cli.sendQuery "0xAAA" "Hello, AI!"
                      (Some Scenario.fee_0_01)) Scenario.B in
      "0xAAA" = "0xAAA"
      /\ Some Scenario.fee_0_01 = Some Scenario.fee_0_01
      /\ gt Scenario.fee_0_01 zero = true
      /\ exists c i e, settlements (snd r) = [("0xAAA", c, i, Throw e)]).
Proof.
  destruct (sendQuery_fallback_only_after_failure
              Scenario.service Scenario.B "0xAAA" "Hello, AI!"
              (Some Scenario.fee_0_01)) as [Hrest Hcli].
  split; intros r.
  - apply (Hrest (fst r) (snd r) "0xAAA" Scenario.fee_0_01 (Ok tt)).
    + apply surjective_pairing.
    + vm_compute. left. reflexivity.
  - apply (Hcli (fst r) (snd r) "0xAAA" Scenario.fee_0_01 (Ok tt)).
    + apply surjective_pairing.
    + vm_compute. left. reflexivity.
Defined.

(** *** Failures *)

(** [exec], keeping what [error.response] was found to be. *)
Ltac exec_step_response Hinit H :=
  match type of H with
  | context [match response ?e with Some _ => _ | None => _ end] =>
      let E := fresh "Hresponse" in destruct (response e) eqn:E;
      reduce_step H
  | _ => exec_step Hinit H
  end.

Ltac exec_response Hinit H :=
  unfold_query H; reduce_step H; repeat exec_step_response Hinit H;
  injection H as <- <-; cbn [app] in *.

(** Membership of an event in an explicit trace. *)
Ltac event_leaf :=
  repeat (match goal with
          | H : False |- _ => destruct H
          | H : _ \/ _ |- _ => destruct H as [H|H]
          | H : @eq Event _ _ |- _ =>
              first [discriminate H | inversion H; clear H]
          end; subst).

(** X9.  In the service, the first of the calls before the response that
    throws ends the query: the method throws [Query failed: ] followed by
    the message of that error, nothing is received, and no settlement,
    automatic or manual, is attempted.  In particular a failed inference
    request is not retried and costs no settlement. *)
Theorem sendQuery_stops_at_first_failure
      (this : BrokerService.t) (w : World) (providerAddress query : string)
      (fallbackFee : option number)
      (out : Outcome BrokerService.QueryResult) (t : Trace) (e : JsError) :
  run (BrokerService.sendQuery this providerAddress query fallbackFee) w
  = (out, t) ->
  In (EvGetServiceMetadata providerAddress (Throw e)) t
  \/ In (EvGetRequestHeaders providerAddress query (Throw e)) t
  \/ (exists baseURL apiKey body headers,
         In (EvChatCreate baseURL apiKey body headers (Throw e)) t) ->
  out = Thrown (Error ("Query failed: " +:+ message e))
  /\ responses t = []
  /\ settlements t = []
  /\ fallbacks t = []
  /\ (In (EvGetServiceMetadata providerAddress (Throw e)) t ->
      stages t = [Resolve])
  /\ (In (EvGetRequestHeaders providerAddress query (Throw e)) t ->
      stages t = [Resolve; Issue]).
Proof.
  intros Hrun Hfail.
  destruct (ensureInitialized_run this) as [Hinit|[e0 Hinit]].
  - destruct Hfail as [Hin|[Hin|(u & k & b & h & Hin)]];
      exec Hinit Hrun; cbn in Hin; event_leaf; leaf;
      do 4 (split; [reflexivity|]);
      split; intros Hin'; cbn in Hin'; event_leaf; leaf; reflexivity.
  - rewrite (sendQuery_not_initialized _ _ _ _ _ _ Hinit) in Hrun.
    injection Hrun as <- <-.
    destruct Hfail as [[]|[[]|(u & k & b & h & [])]].
Qed.

Lemma sendQuery_stops_at_first_failure_transport :
  let r := run (BrokerService.sendQuery Scenario.service
                  "0xAAA" "Hello, AI!" (Some Scenario.fee_0_01))
               Worlds.transport_down in
  fst r = Thrown (Error ("Query failed: " +:+ message Worlds.unavailable))
  /\ responses (snd r) = []
  /\ settlements (snd r) = []
  /\ fallbacks (snd r) = []
  /\ (In (EvGetServiceMetadata "0xAAA" (Throw Worlds.unavailable)) (snd r) ->
      stages (snd r) = [Resolve])
  /\ (In (EvGetRequestHeaders "0xAAA" "Hello, AI!"
            (Throw Worlds.unavailable)) (snd r) ->
      stages (snd r) = [Resolve; Issue]).
Proof.
  intros r.
  apply (sendQuery_stops_at_first_failure
           Scenario.service Worlds.transport_down "0xAAA" "Hello, AI!"
           (Some Scenario.fee_0_01) (fst r) (snd r) Worlds.unavailable).
  - apply surjective_pairing.
  - right. right.
    exists (endpoint Scenario.metadata), "",
      {| messages := [ {| role := "user"; msg_content := "Hello, AI!" |} ];
         req_model := model Scenario.metadata |},
      (prepareHeaders Scenario.issued).
    vm_compute. right. right. left. reflexivity.
Defined.

(** X10.  The CLI turns the same failures into console output: it prints
    [Error sending query:] with the message, then, when the error carries
    an HTTP response, its status and its data, and returns normally.  No
    content is printed and no settlement is attempted. *)
Theorem cli_sendQuery_reports_failure
      (w : World) (providerAddress query : string)
      (fallbackFee : option number)
      (out : Outcome unit) (t : Trace) (e : JsError) :
  run (Cli.sendQuery providerAddress query fallbackFee) w = (out, t) ->
  In (EvGetServiceMetadata providerAddress (Throw e)) t
  \/ In (EvGetRequestHeaders providerAddress query (Throw e)) t
  \/ (exists baseURL apiKey body headers,
         In (EvChatCreate baseURL apiKey body headers (Throw e)) t) ->
  out = Returned tt
  /\ In (ErrorLog, [PStr "Error sending query:"; PStr (message e)])
        (printed t)
  /\ (forall resp,
         response e = Some resp ->
         exists before,
           printed t
           = before ++ [(ErrorLog, [PStr "Error sending query:";
                                    PStr (message e)]);
                        (ErrorLog, [PStr "API Error status:";
                                    PAny (status resp)]);
                        (ErrorLog, [PStr "API Error data:";
                                    PAny (data resp)])])
  /\ (response e = None ->
      last (printed t)
      = Some (ErrorLog, [PStr "Error sending query:"; PStr (message e)]))
  /\ (forall content, ~ In (Log, [PContent content]) (printed t))
  /\ settlements t = []
  /\ fallbacks t = [].
Proof.
  intros Hrun Hfail.
  destruct Hfail as [Hin|[Hin|(u & k & b & h & Hin)]];
    exec_response I Hrun; cbn in Hin; event_leaf; leaf; cbn;
    (split; [reflexivity|]); (split; [member|]);
    (split; [intros resp Hresp; rewrite Hresp in *; leaf;
             eexists; cbn;
             match goal with
             | |- ?l = _ ++ _ =>
                 let n := eval cbv in (length l - 3) in
                 instantiate (1 := firstn n l)
             end; reflexivity|]);
    (split; [intros Hnone; rewrite Hnone in *; leaf; reflexivity|]);
    (split; [intros content Hprinted; leaf; discriminate|]);
    split; reflexivity.
Qed.

Lemma cli_sendQuery_reports_failure_transport :
  let r := run (Cli.sendQuery "0xAAA" "Hello, AI!" None)
               Worlds.transport_down in
  let e := Worlds.unavailable in
  fst r = Returned tt
  /\ In (ErrorLog, [PStr "Error sending query:"; PStr (message e)])
        (printed (snd r))
  /\ (forall resp,
         response e = Some resp ->
         exists before,
           printed (snd r)
           = before ++ [(ErrorLog, [PStr "Error sending query:";
                                    PStr (message e)]);
                        (ErrorLog, [PStr "API Error status:";
                                    PAny (status resp)]);
                        (ErrorLog, [PStr "API Error data:";
                                    PAny (data resp)])])
  /\ (response e = None ->
      last (printed (snd r))
      = Some (ErrorLog, [PStr "Error sending query:"; PStr (message e)]))
  /\ (forall content, ~ In (Log, [PContent content]) (printed (snd r)))
  /\ settlements (snd r) = []
  /\ fallbacks (snd r) = [].
Proof.
  intros r e.
  apply (cli_sendQuery_reports_failure
           Worlds.transport_down "0xAAA" "Hello, AI!" None
           (fst r) (snd r) e).
  - apply surjective_pairing.
  - right. right.
    exists (endpoint Scenario.metadata), "",
      {| messages := [ {| role := "user"; msg_content := "Hello, AI!" |} ];
         req_model := model Scenario.metadata |},
      (prepareHeaders Scenario.issued).
    vm_compute. do 9 right. left. reflexivity.
Defined.

(** X11.  When the automatic settlement throws and the manual settlement
    throws as well, the service throws [Query failed: Failed to settle
    fee: ] followed by the message of the second error: the message of the
    first one is not part of what the caller gets.  The CLI prints both
    messages, the first under [Error processing response:], the second
    under [Error settling fee:], and returns normally. *)
Theorem sendQuery_both_settlements_fail
      (this : BrokerService.t) (w : World) (providerAddress query : string)
      (fallbackFee : option number) :
  (forall out t p c i e1 p' fee e2,
      run (BrokerService.sendQuery this providerAddress query fallbackFee) w
      = (out, t) ->
      In (p, c, i, Throw e1) (settlements t) ->
      In (p', fee, Throw e2) (fallbacks t) ->
      out = Thrown (Error ("Query failed: Failed to settle fee: "
                           +:+ message e2)))
  /\ (forall out t p c i e1 p' fee e2,
         run (Cli.sendQuery providerAddress query fallbackFee) w = (out, t) ->
         In (p, c, i, Throw e1) (settlements t) ->
         In (p', fee, Throw e2) (fallbacks t) ->
         out = Returned tt
         /\ In (Log, [PStr "Error processing response:"; PStr (message e1)])
               (printed t)
         /\ last (printed t)
            = Some (ErrorLog, [PStr "Error settling fee:";
                               PStr (message e2)])).
Proof.
  split.
  - intros out t p c i e1 p' fee e2 Hrun Hauto Hmanual.
    destruct (ensureInitialized_run this) as [Hinit|[e0 Hinit]].
    + exec Hinit Hrun; cbn in Hauto, Hmanual; leaf. reflexivity.
    + rewrite (sendQuery_not_initialized _ _ _ _ _ _ Hinit) in Hrun.
      injection Hrun as <- <-. destruct Hauto.
  - intros out t p c i e1 p' fee e2 Hrun Hauto Hmanual.
    exec I Hrun; cbn in Hauto, Hmanual; leaf.
    cbn. repeat split. member.
Qed.

Lemma sendQuery_both_settlements_fail_scenario :
  (let r := run (BrokerService.sendQuery Scenario.service
                   "0xAAA" "Hello, AI!" (Some Scenario.fee_0_01))
                Scenario.B_failing in
   fst r = Thrown (Error ("Query failed: Failed to settle fee: "
                          +:+ "insufficient balance")))
  /\ (let r := run (Cli.sendQuery "0xAAA" "Hello, AI!"
                      (Some Scenario.fee_0_01)) Scenario.B_failing in
      fst r = Returned tt
      /\ In (Log, [PStr "Error processing response:"; PStr "stale fee"])
            (printed (snd r))
      /\ last (printed (snd r))
         = Some (ErrorLog, [PStr "Error settling fee:";
                            PStr "insufficient balance"])).
Proof.
  destruct (sendQuery_both_settlements_fail
              Scenario.service Scenario.B_failing "0xAAA" "Hello, AI!"
              (Some Scenario.fee_0_01)) as [Hrest Hcli].
  split; intros r.
  - apply (Hrest (fst r) (snd r) "0xAAA" "Hi there" "chat-1"
                 Scenario.stale_fee "0xAAA" Scenario.fee_0_01
                 (Error "insufficient balance")).
    + apply surjective_pairing.
    + vm_compute. left. reflexivity.
    + vm_compute. left. reflexivity.
  - apply (Hcli (fst r) (snd r) "0xAAA" "Hi there" "chat-1"
                Scenario.stale_fee "0xAAA" Scenario.fee_0_01
                (Error "insufficient balance")).
    + apply surjective_pairing.
    + vm_compute. left. reflexivity.
    + vm_compute. left. reflexivity.
Defined.

(** ** The two front ends drive the broker alike *)

Ltac to_empty_history Hm Hh Hc Hp Hs :=
  repeat match goal with
         | H : w_getServiceMetadata _ (?x :: ?t) _ = _ |- _ =>
             rewrite (Hm (x :: t) []) in H
         | H : w_getRequestHeaders _ (?x :: ?t) _ _ = _ |- _ =>
             rewrite (Hh (x :: t) []) in H
         | H : w_chatCreate _ (?x :: ?t) _ _ _ _ = _ |- _ =>
             rewrite (Hc (x :: t) []) in H
         | H : w_processResponse _ (?x :: ?t) _ _ _ = _ |- _ =>
             rewrite (Hp (x :: t) []) in H
         | H : w_settleFee _ (?x :: ?t) _ _ = _ |- _ =>
             rewrite (Hs (x :: t) []) in H
         end.

(** X12.  Against a broker and an endpoint whose answers do not depend
    on what happened before, the command-line query and the query of an
    initialised service make the same calls, with the same arguments, in
    the same order, and get the same answers: the trace of the service is
    the trace of the CLI without its console lines. *)
Theorem front_ends_make_the_same_calls
      (this : BrokerService.t) (w : World) (providerAddress query : string)
      (fallbackFee : option number) :
  history_free w ->
  BrokerService.ensureInitialized this w [] = (Returned tt, []) ->
  calls (snd (run (Cli.sendQuery providerAddress query fallbackFee) w))
  = snd (run (BrokerService.sendQuery this providerAddress query
                                      fallbackFee) w).
Proof.
  intros (Hm & Hh & Hc & Hp & Hs) H.
  pose proof (ensureInitialized_passes _ _ _ _ H) as Hinit. clear H.
  destruct (run (Cli.sendQuery providerAddress query fallbackFee) w)
    as [out1 t1] eqn:Hcli.
  destruct (run (BrokerService.sendQuery this providerAddress query
                                         fallbackFee) w)
    as [out2 t2] eqn:Hrest.
  exec I Hcli; exec Hinit Hrest;
    to_empty_history Hm Hh Hc Hp Hs; cbn; congruence.
Qed.

Lemma history_free_scenario (headers : gmap string JsValue)
      (answer : ChatCompletion) (auto : Result bool) (manual : Result unit) :
  history_free (Scenario.world headers answer auto manual).
Proof. repeat split. Qed.

Lemma front_ends_make_the_same_calls_scenario_B :
  calls (snd (run (Cli.sendQuery "0xAAA" "Hello, AI!"
                     (Some Scenario.fee_0_01)) Scenario.B))
  = snd (run (BrokerService.sendQuery Scenario.service "0xAAA" "Hello, AI!"
                (Some Scenario.fee_0_01)) Scenario.B).
Proof.
  apply (front_ends_make_the_same_calls
           Scenario.service Scenario.B "0xAAA" "Hello, AI!"
           (Some Scenario.fee_0_01)).
  - apply history_free_scenario.
  - reflexivity.
Defined.

(** ** How the command-line operations end *)

Section Ends.

Variable E : Ending -> Prop.

Lemma ends_ret {A} (a : A) : E Returns -> ends E (ret a).
Proof. intros H w t. exact H. Qed.

Lemma ends_throw {A} (e : JsError) : E Throws -> ends E (@throw A e).
Proof. intros H w t. exact H. Qed.

Lemma ends_process_exit {A} (code : Z) :
  E (Exits code) -> ends E (@process_exit A code).
Proof. intros H w t. exact H. Qed.

Lemma ends_console (l : Level) (line : list Piece) :
  E Returns -> ends E (console l line).
Proof. intros H w t. exact H. Qed.

Lemma ends_call {A} (ask : World -> Trace -> Result A)
      (ev : Result A -> Event) :
  E Returns -> E Throws -> ends E (call ask ev).
Proof.
  intros Hr Ht w t. unfold call. cbn. destruct (ask w t); assumption.
Qed.

Lemma ends_bind {A B} (m : M A) (k : A -> M B) :
  ends E m -> (forall a, ends E (k a)) -> ends E (bind m k).
Proof.
  intros Hm Hk w t. unfold bind. specialize (Hm w t).
  destruct (m w t) as [[a|e|code] t1]; cbn in *; auto. apply Hk.
Qed.

(** A [try] lets through every ending of its body but the throw, which
    it replaces by the ending of the handler. *)
Lemma ends_try_catch {A} (E0 : Ending -> Prop) (m : M A)
      (h : JsError -> M A) :
  ends E0 m ->
  (forall x, x <> Throws -> E0 x -> E x) ->
  (forall e, ends E (h e)) ->
  ends E (try_catch m h).
Proof.
  intros Hm Hweak Hh w t. unfold try_catch. specialize (Hm w t).
  destruct (m w t) as [[a|e|code] t1]; cbn in *.
  - apply Hweak; [discriminate|assumption].
  - apply Hh.
  - apply Hweak; [discriminate|assumption].
Qed.

End Ends.

Lemma ends_weaken {A} (E0 E : Ending -> Prop) (m : M A) :
  (forall x, E0 x -> E x) -> ends E0 m -> ends E m.
Proof. intros Hweak Hm w t. apply Hweak, Hm. Qed.

Lemma returns_or_throws_caught (x : Ending) :
  x <> Throws -> returns_or_throws x -> returns x.
Proof. intros Hx [H|H]; [exact H|contradiction]. Qed.

Lemma no_exit_but_1_caught (x : Ending) :
  x <> Throws -> no_exit_but_1 x -> returns_or_exits_1 x.
Proof.
  intros Hx [H|[H|H]]; [left; exact H|contradiction|right; exact H].
Qed.

Lemma returns_no_exit_but_1 (x : Ending) : returns x -> no_exit_but_1 x.
Proof. intros H. left. exact H. Qed.

Lemma returns_returns_or_throws (x : Ending) :
  returns x -> returns_or_throws x.
Proof. intros H. left. exact H. Qed.

Create HintDb ends.

#[local] Hint Unfold returns returns_or_throws returns_or_exits_1
  no_exit_but_1 : ends.

(** One step through a body that cannot end the process. *)
Ltac body_step :=
  match goal with
  | |- ends _ (bind _ _) => apply ends_bind; [|intros ?]
  | |- ends _ (ret _) => apply ends_ret; autounfold with ends; auto
  | |- ends _ (throw _) => apply ends_throw; autounfold with ends; auto
  | |- ends _ (process_exit _) =>
      apply ends_process_exit; autounfold with ends; auto
  | |- ends _ (console _ _) => apply ends_console; autounfold with ends; auto
  | |- ends _ (call _ _) => apply ends_call; autounfold with ends; auto
  | |- ends _ (match ?x with _ => _ end) => destruct x
  | |- ends _ _ => solve [auto with ends]
  end.

(** A function that is one [try] whose handler only prints. *)
Ltac caught :=
  apply (ends_try_catch returns returns_or_throws);
  [repeat body_step | exact returns_or_throws_caught
   | intros ?; repeat body_step].

Lemma checkBalance_returns : ends returns Cli.checkBalance.
Proof. unfold Cli.checkBalance, ledger_getLedger. caught. Qed.

Lemma checkBalance_in_body : ends returns_or_throws Cli.checkBalance.
Proof.
  apply (ends_weaken returns); [exact returns_returns_or_throws|].
  apply checkBalance_returns.
Qed.

#[local] Hint Resolve checkBalance_in_body : ends.

Lemma print_services_in_body (services : list Service) (index : nat) :
  ends returns_or_throws (Cli.print_services index services).
Proof.
  revert index. induction services as [|service rest IH]; intros index; cbn.
  - repeat body_step.
  - repeat (apply ends_bind; [repeat body_step|intros _]). apply IH.
Qed.

#[local] Hint Resolve print_services_in_body : ends.

Lemma settleFeeManually_returns (providerAddress : string) (fee : number) :
  ends returns (Cli.settleFeeManually providerAddress fee).
Proof.
  unfold Cli.settleFeeManually, inference_settleFee.
  apply ends_bind; [repeat body_step|intros _]. caught.
Qed.

Lemma settleFeeManually_in_body (providerAddress : string) (fee : number) :
  ends returns_or_throws (Cli.settleFeeManually providerAddress fee).
Proof.
  apply (ends_weaken returns); [exact returns_returns_or_throws|].
  apply settleFeeManually_returns.
Qed.

#[local] Hint Resolve settleFeeManually_in_body : ends.

Lemma depositFunds_returns (amount : number) :
  ends returns (Cli.depositFunds amount).
Proof. unfold Cli.depositFunds, ledger_depositFund. caught. Qed.

Lemma addFundsToLedger_returns (amount : number) :
  ends returns (Cli.addFundsToLedger amount).
Proof. unfold Cli.addFundsToLedger, ledger_addLedger. caught. Qed.

Lemma listServices_returns : ends returns Cli.listServices.
Proof. unfold Cli.listServices, inference_listService. caught. Qed.

Lemma sendQuery_returns (providerAddress query : string)
      (fallbackFee : option number) :
  ends returns (Cli.sendQuery providerAddress query fallbackFee).
Proof.
  unfold Cli.sendQuery, inference_getServiceMetadata,
    inference_getRequestHeaders, chat_completions_create,
    inference_processResponse, first_choice_content.
  apply (ends_try_catch returns returns_or_throws);
    [|exact returns_or_throws_caught|intros ?; repeat body_step].
  repeat (apply ends_bind; [repeat body_step|intros ?]).
  apply (ends_weaken returns); [exact returns_returns_or_throws|].
  apply (ends_try_catch returns returns_or_throws);
    [repeat body_step|exact returns_or_throws_caught|intros ?].
  apply ends_bind; [repeat body_step|intros _].
  destruct (usable_fee fallbackFee); [|repeat body_step].
  apply ends_bind; [repeat body_step|intros _].
  apply settleFeeManually_returns.
Qed.

(** X13.  The operations of the command line never throw and never end
    the process: whatever the broker and the endpoint do, [checkBalance],
    [depositFunds], [addFundsToLedger], [listServices],
    [settleFeeManually] and [sendQuery] return normally, every failure
    having been turned into console output. *)
Theorem cli_operations_always_return
        (amount : number) (providerAddress query : string)
        (fallbackFee : option number) :
  ends returns Cli.checkBalance
  /\ ends returns (Cli.depositFunds amount)
  /\ ends returns (Cli.addFundsToLedger amount)
  /\ ends returns Cli.listServices
  /\ ends returns (Cli.settleFeeManually providerAddress amount)
  /\ ends returns (Cli.sendQuery providerAddress query fallbackFee).
Proof.
  repeat split;
    auto using checkBalance_returns, depositFunds_returns,
      addFundsToLedger_returns, listServices_returns,
      settleFeeManually_returns, sendQuery_returns.
Qed.

(** In the body of [main] an operation can only return. *)
Lemma returns_in_main {A} (m : M A) :
  ends returns m -> ends no_exit_but_1 m.
Proof. apply ends_weaken. exact returns_no_exit_but_1. Qed.

Lemma initializeWalletAndBroker_in_main (privateKey : string) :
  ends no_exit_but_1 (Cli.initializeWalletAndBroker privateKey).
Proof.
  unfold Cli.initializeWalletAndBroker, newWallet,
    createZGComputeNetworkBroker.
  apply (ends_try_catch no_exit_but_1 no_exit_but_1);
    [repeat body_step|auto|intros ?; repeat body_step].
Qed.

(** X14.  [main] catches everything: it never ends with an exception.
    It either returns normally or ends the process with exit code 1, and
    with no other code. *)
Theorem main_returns_or_exits_1
        (parseFloat : string -> number) (argv : list string)
        (PRIVATE_KEY : option string) :
  ends returns_or_exits_1 (Cli.main parseFloat argv PRIVATE_KEY).
Proof.
  unfold Cli.main, Cli.showHelp. cbv zeta.
  apply (ends_try_catch returns_or_exits_1 no_exit_but_1);
    [|exact no_exit_but_1_caught|intros ?; repeat body_step].
  destruct (Cli.flag _ "help"); [repeat body_step|].
  apply ends_bind; [repeat body_step|intros privateKey].
  apply ends_bind; [apply initializeWalletAndBroker_in_main|intros _].
  repeat match goal with
         | |- ends _ (match ?x with _ => _ end) => destruct x
         end;
    apply returns_in_main;
    first [ solve [auto using checkBalance_returns, depositFunds_returns,
                     addFundsToLedger_returns, listServices_returns,
                     settleFeeManually_returns, sendQuery_returns]
          | repeat body_step ].
Qed.

(** ** What [main] does before it has a broker *)

(** X15.  [--help] comes first: with the help flag set, [main] prints the
    help text and returns, without reading a key and without creating a
    wallet or a broker, whatever else is on the command line.  Without
    it, and with no private key on the command line or in the environment
    (unset or empty), [main] prints that a key is required and ends the
    process with code 1, again before any call. *)
Theorem main_before_initialisation
        (parseFloat : string -> number) (argv : list string)
        (PRIVATE_KEY : option string) (w : World) :
  (forall text,
      Cli.flag (Cli.parseArgs argv) "help" = Some text ->
      run (Cli.main parseFloat argv PRIVATE_KEY) w
      = (Returned tt, [EvConsole Log [PHelpText]]))
  /\ (Cli.flag (Cli.parseArgs argv) "help" = None ->
      Cli.flag (Cli.parseArgs argv) "privateKey" = None ->
      PRIVATE_KEY = None \/ PRIVATE_KEY = Some "" ->
      run (Cli.main parseFloat argv PRIVATE_KEY) w
      = (Exited 1,
         [EvConsole ErrorLog
            [PStr "Private key is required. Use -k/--privateKey [key] or set PRIVATE_KEY in .env"]])).
Proof.
  split.
  - intros text Hhelp.
    unfold run, Cli.main, try_catch. cbv zeta. rewrite Hhelp. reflexivity.
  - intros Hhelp Hkey Henv.
    unfold run, Cli.main, try_catch, bind. cbv zeta.
    rewrite Hhelp, Hkey.
    destruct Henv as [->| ->]; reflexivity.
Qed.

Lemma main_before_initialisation_scenario :
  run (Cli.main Scenario.parseFloat ["-h"; "-d"; "0.01"] None) Scenario.A
  = (Returned tt, [EvConsole Log [PHelpText]])
  /\ run (Cli.main Scenario.parseFloat ["-d"; "0.01"] (Some "")) Scenario.A
     = (Exited 1,
        [EvConsole ErrorLog
           [PStr "Private key is required. Use -k/--privateKey [key] or set PRIVATE_KEY in .env"]]).
Proof.
  split.
  - apply (proj1 (main_before_initialisation
                    Scenario.parseFloat ["-h"; "-d"; "0.01"] None Scenario.A)
                 "true").
    vm_compute. reflexivity.
  - apply (proj2 (main_before_initialisation
                    Scenario.parseFloat ["-d"; "0.01"] (Some "") Scenario.A)).
    + vm_compute. reflexivity.
    + vm_compute. reflexivity.
    + right. reflexivity.
Defined.

(** The key [main] goes on with: the one of the command line, else the
    one of the environment. *)
Lemma main_with_key (parseFloat : string -> number) (argv : list string)
      (PRIVATE_KEY : option string) (key : string) (w : World)
      (out : Outcome unit) (t : Trace) :
  Cli.flag (Cli.parseArgs argv) "help" = None ->
  Cli.flag (Cli.parseArgs argv) "privateKey" = Some key
  \/ (Cli.flag (Cli.parseArgs argv) "privateKey" = None
      /\ PRIVATE_KEY = Some key /\ truthy_string key = true) ->
  run (Cli.main parseFloat argv PRIVATE_KEY) w = (out, t) ->
  forall r1 : Result Wallet,
    r1 = w_newWallet w
           [EvConsole Log [PStr "Using private key (first few chars):";
                           PStr (String.substring 0 6 key +:+ "...")]] key ->
    match r1 with
    | Throw e =>
        out = Exited 1
        /\ t = [EvConsole Log [PStr "Using private key (first few chars):";
                               PStr (String.substring 0 6 key +:+ "...")];
                EvNewWallet key (Throw e);
                EvConsole ErrorLog
                  [PStr "Error initializing wallet and broker:";
                   PStr (message e)];
                EvConsole ErrorLog [PStr "Error:"; PStr (message e)]]
    | Ok wl =>
        forall r2 : Result unit,
          r2 = w_createBroker w
                 [EvConsole Log [PStr "Using private key (first few chars):";
                                 PStr (String.substring 0 6 key +:+ "...")];
                  EvNewWallet key (Ok wl);
                  EvConsole Log [PStr "Wallet address:"; PStr (address wl)];
                  EvConsole Log [PStr "Initializing broker..."]] wl ->
          match r2 with
          | Throw e =>
              out = Exited 1
              /\ t = [EvConsole Log
                        [PStr "Using private key (first few chars):";
                         PStr (String.substring 0 6 key +:+ "...")];
                      EvNewWallet key (Ok wl);
                      EvConsole Log [PStr "Wallet address:";
                                     PStr (address wl)];
                      EvConsole Log [PStr "Initializing broker..."];
                      EvCreateBroker wl (Throw e);
                      EvConsole ErrorLog
                        [PStr "Error initializing wallet and broker:";
                         PStr (message e)];
                      EvConsole ErrorLog [PStr "Error:"; PStr (message e)]]
          | Ok _ => True
          end
    end.
Proof.
  intros Hhelp Hkey Hrun r1 Hr1.
  unfold_main Hrun. rewrite Hhelp in Hrun.
  destruct Hkey as [Hkey|(Hkey & -> & Htruthy)]; rewrite Hkey in Hrun;
    rewrite ?Htruthy in Hrun; cbn beta iota zeta in Hrun; cbn [app] in Hrun;
    rewrite <- Hr1 in Hrun; destruct r1 as [wl|e];
    cbn beta iota zeta in Hrun; cbn [app] in Hrun;
    try (injection Hrun as <- <-; split; reflexivity);
    intros r2 Hr2; rewrite <- Hr2 in Hrun; destruct r2 as [[]|e];
    cbn beta iota zeta in Hrun; cbn [app] in Hrun; try exact I;
    injection Hrun as <- <-; split; reflexivity.
Qed.

(** X16.  When the wallet cannot be made of the key, or the broker cannot
    be created for the wallet, [main] prints the error twice (once by
    [initializeWalletAndBroker], once by its own handler), ends the
    process with code 1 and performs no operation; the broker is not
    created when the wallet could not be. *)
Theorem main_initialisation_failure
        (parseFloat : string -> number) (argv : list string)
        (PRIVATE_KEY : option string) (key : string) (w : World)
        (e : JsError) (out : Outcome unit) (t : Trace) :
  Cli.flag (Cli.parseArgs argv) "help" = None ->
  Cli.flag (Cli.parseArgs argv) "privateKey" = Some key
  \/ (Cli.flag (Cli.parseArgs argv) "privateKey" = None
      /\ PRIVATE_KEY = Some key /\ truthy_string key = true) ->
  run (Cli.main parseFloat argv PRIVATE_KEY) w = (out, t) ->
  (forall t0, w_newWallet w t0 key = Throw e)
  \/ (exists wl, (forall t0, w_newWallet w t0 key = Ok wl)
                 /\ forall t0, w_createBroker w t0 wl = Throw e) ->
  out = Exited 1
  /\ (exists before,
         printed t
         = before ++ [(ErrorLog, [PStr "Error initializing wallet and broker:";
                                  PStr (message e)]);
                      (ErrorLog, [PStr "Error:"; PStr (message e)])])
  /\ ((forall t0, w_newWallet w t0 key = Throw e) ->
      calls t = [EvNewWallet key (Throw e)])
  /\ (forall wl,
         (forall t0, w_newWallet w t0 key = Ok wl) ->
         calls t = [EvNewWallet key (Ok wl); EvCreateBroker wl (Throw e)]).
Proof.
  intros Hhelp Hkey Hrun Hfail.
  pose proof (main_with_key _ _ _ _ _ _ _ Hhelp Hkey Hrun _ eq_refl) as H.
  destruct Hfail as [Hwallet|(wl & Hwallet & Hbroker)];
    rewrite Hwallet in H.
  - destruct H as [-> ->]. split; [reflexivity|].
    split; [exists [(Log, [PStr "Using private key (first few chars):";
                           PStr (String.substring 0 6 key +:+ "...")])];
            reflexivity|].
    split; [reflexivity|].
    intros wl Hwl. specialize (Hwl []). rewrite Hwallet in Hwl.
    discriminate Hwl.
  - specialize (H _ eq_refl). rewrite Hbroker in H.
    destruct H as [-> ->]. split; [reflexivity|].
    split; [exists [(Log, [PStr "Using private key (first few chars):";
                           PStr (String.substring 0 6 key +:+ "...")]);
                    (Log, [PStr "Wallet address:"; PStr (address wl)]);
                    (Log, [PStr "Initializing broker..."])];
            reflexivity|].
    split.
    + intros Hthrow. specialize (Hthrow []). rewrite Hwallet in Hthrow.
      discriminate Hthrow.
    + intros wl' Hwl'. specialize (Hwl' []). rewrite Hwallet in Hwl'.
      injection Hwl' as <-. reflexivity.
Qed.

Lemma main_initialisation_failure_bad_key :
  let r := run (Cli.main Scenario.parseFloat ["-k"; "oops"; "-b"] None)
               Worlds.rejecting_key in
  let e := Error "invalid private key" in
  fst r = Exited 1
  /\ (exists before,
         printed (snd r)
         = before ++ [(ErrorLog, [PStr "Error initializing wallet and broker:";
                                  PStr (message e)]);
                      (ErrorLog, [PStr "Error:"; PStr (message e)])])
  /\ ((forall t0, w_newWallet Worlds.rejecting_key t0 "oops" = Throw e) ->
      calls (snd r) = [EvNewWallet "oops" (Throw e)])
  /\ (forall wl,
         (forall t0, w_newWallet Worlds.rejecting_key t0 "oops" = Ok wl) ->
         calls (snd r)
         = [EvNewWallet "oops" (Ok wl); EvCreateBroker wl (Throw e)]).
Proof.
  intros r e.
  apply (main_initialisation_failure
           Scenario.parseFloat ["-k"; "oops"; "-b"] None "oops"
           Worlds.rejecting_key e (fst r) (snd r)).
  - vm_compute. reflexivity.
  - left. vm_compute. reflexivity.
  - apply surjective_pairing.
  - left. intros t0. reflexivity.
Defined.

(** ** The footprint of the command-line operations *)

(** What each operation can add to the trace: console lines, and the
    calls named in the hypotheses. *)
Section Footprint.

Variable P : Event -> Prop.

Hypothesis console_allowed : forall l line, P (EvConsole l line).

Ltac footprint_step :=
  match goal with
  | |- emits _ (bind _ _) => apply emits_bind; [|intros ?]
  | |- emits _ (try_catch _ _) => apply emits_try_catch; [|intros ?]
  | |- emits _ (console _ _) => apply emits_console; apply console_allowed
  | |- emits _ (call _ _) => apply emits_call; intros ?; auto
  | |- emits _ (ret _) => apply emits_ret
  | |- emits _ (throw _) => apply emits_throw
  | |- emits _ (process_exit _) => apply emits_process_exit
  | |- emits _ (match ?x with _ => _ end) => destruct x eqn:?
  | |- emits _ _ => solve [eauto]
  end.

Lemma checkBalance_footprint :
  (forall r, P (EvGetLedger r)) -> emits P Cli.checkBalance.
Proof.
  intros H. unfold Cli.checkBalance, ledger_getLedger.
  repeat footprint_step.
Qed.

Lemma depositFunds_footprint (amount : number) :
  (forall r, P (EvDepositFund amount r)) ->
  (forall r, P (EvGetLedger r)) ->
  emits P (Cli.depositFunds amount).
Proof.
  intros H1 H2. pose proof (checkBalance_footprint H2).
  unfold Cli.depositFunds, ledger_depositFund. repeat footprint_step.
Qed.

Lemma addFundsToLedger_footprint (amount : number) :
  (forall r, P (EvAddLedger amount r)) ->
  (forall r, P (EvGetLedger r)) ->
  emits P (Cli.addFundsToLedger amount).
Proof.
  intros H1 H2. pose proof (checkBalance_footprint H2).
  unfold Cli.addFundsToLedger, ledger_addLedger. repeat footprint_step.
Qed.

Lemma print_services_footprint (services : list Service) (index : nat) :
  emits P (Cli.print_services index services).
Proof.
  revert index. induction services as [|service rest IH]; intros index; cbn.
  - apply emits_ret.
  - repeat (apply emits_bind; [repeat footprint_step|intros _]). apply IH.
Qed.

Lemma listServices_footprint :
  (forall r, P (EvListService r)) -> emits P Cli.listServices.
Proof.
  intros H. pose proof print_services_footprint.
  unfold Cli.listServices, inference_listService. repeat footprint_step.
Qed.

Lemma settleFeeManually_footprint (providerAddress : string) (fee : number) :
  (forall r, P (EvSettleFee providerAddress fee r)) ->
  emits P (Cli.settleFeeManually providerAddress fee).
Proof.
  intros H. unfold Cli.settleFeeManually, inference_settleFee.
  repeat footprint_step.
Qed.

Lemma sendQuery_footprint (providerAddress query : string)
      (fallbackFee : option number) :
  (forall p r, P (EvGetServiceMetadata p r)) ->
  (forall p q r, P (EvGetRequestHeaders p q r)) ->
  (forall u k b h r, P (EvChatCreate u k b h r)) ->
  (forall p c i r, P (EvProcessResponse p c i r)) ->
  (forall fee r,
      usable_fee fallbackFee = Some fee ->
      P (EvSettleFee providerAddress fee r)) ->
  emits P (Cli.sendQuery providerAddress query fallbackFee).
Proof.
  intros H1 H2 H3 H4 H5.
  unfold Cli.sendQuery, inference_getServiceMetadata,
    inference_getRequestHeaders, chat_completions_create,
    inference_processResponse, first_choice_content.
  repeat footprint_step.
  apply settleFeeManually_footprint. auto.
Qed.

Lemma initializeWalletAndBroker_footprint (privateKey : string) :
  (forall k r, P (EvNewWallet k r)) ->
  (forall wl r, P (EvCreateBroker wl r)) ->
  emits P (Cli.initializeWalletAndBroker privateKey).
Proof.
  intros H1 H2.
  unfold Cli.initializeWalletAndBroker, newWallet,
    createZGComputeNetworkBroker.
  repeat footprint_step.
Qed.

End Footprint.

Lemma usable_fee_amount_ok (fallbackFee : option number) (fee : number) :
  usable_fee fallbackFee = Some fee -> amount_ok fee = true.
Proof.
  intros H. apply usable_fee_Some in H as [_ Hgt]. unfold amount_ok.
  rewrite Hgt. destruct fee; cbn in *; congruence.
Qed.

Lemma main_amounts_checked (parseFloat : string -> number)
      (argv : list string) (PRIVATE_KEY : option string) :
  emits amounts_checked (Cli.main parseFloat argv PRIVATE_KEY).
Proof.
  assert (Hconsole : forall l line, amounts_checked (EvConsole l line))
    by (intros; exact I).
  unfold Cli.main, Cli.showHelp. cbv zeta.
  repeat match goal with
         | |- emits _ (bind _ _) => apply emits_bind; [|intros ?]
         | |- emits _ (try_catch _ _) => apply emits_try_catch; [|intros ?]
         | |- emits _ (console _ _) => apply emits_console; exact I
         | |- emits _ (ret _) => apply emits_ret
         | |- emits _ (process_exit _) => apply emits_process_exit
         | |- emits _ (match ?x with _ => _ end) => destruct x eqn:?
         | |- emits _ (Cli.initializeWalletAndBroker _) =>
             apply initializeWalletAndBroker_footprint; intros; exact I
         | |- emits _ Cli.listServices =>
             apply listServices_footprint; intros; exact I
         | |- emits _ Cli.checkBalance =>
             apply checkBalance_footprint; intros; exact I
         | |- emits _ (Cli.depositFunds _) =>
             apply depositFunds_footprint; intros; exact I
         | |- emits _ (Cli.addFundsToLedger _) =>
             apply addFundsToLedger_footprint; intros;
             solve [exact I | assumption]
         | |- emits _ (Cli.settleFeeManually _ _) =>
             apply settleFeeManually_footprint; intros;
             solve [exact I | assumption]
         | |- emits _ (Cli.sendQuery _ _ _) =>
             apply sendQuery_footprint; intros;
             solve [exact I | eapply usable_fee_amount_ok; eassumption]
         end.
Qed.

Lemma amount_ok_positive (amount : number) :
  amount_ok amount = true -> isNaN amount = false /\ gt amount zero = true.
Proof.
  unfold amount_ok. intros H. apply andb_true_iff in H as [Hnan Hgt].
  apply negb_true_iff in Hnan. auto.
Qed.

(** X17.  What [main] checks for a deposit it checks for the other
    amounts too: it never calls the broker's [addLedger] or [settleFee]
    with an amount that is [NaN] or not greater than zero, be it the fee of
    a manual settlement or the fallback fee of a query. *)
Theorem main_checks_ledger_and_fee_amounts
        (parseFloat : string -> number) (argv : list string)
        (PRIVATE_KEY : option string) (w : World)
        (out : Outcome unit) (t : Trace) :
  run (Cli.main parseFloat argv PRIVATE_KEY) w = (out, t) ->
  (forall amount r,
      In (EvAddLedger amount r) t ->
      isNaN amount = false /\ gt amount zero = true)
  /\ (forall provider fee r,
         In (EvSettleFee provider fee r) t ->
         isNaN fee = false /\ gt fee zero = true).
Proof.
  intros Hrun.
  assert (Hall : Forall amounts_checked t).
  { replace t with (snd (run (Cli.main parseFloat argv PRIVATE_KEY) w))
      by now rewrite Hrun.
    apply emits_run, main_amounts_checked. }
  rewrite Forall_forall in Hall.
  split.
  - intros amount r Hin. apply amount_ok_positive.
    apply list_elem_of_In in Hin. exact (Hall _ Hin).
  - intros provider fee r Hin. apply amount_ok_positive.
    apply list_elem_of_In in Hin. exact (Hall _ Hin).
Qed.

Lemma main_checks_ledger_and_fee_amounts_scenario :
  (isNaN Scenario.fee_0_01 = false /\ gt Scenario.fee_0_01 zero = true)
  /\ (isNaN Scenario.fee_0_01 = false /\ gt Scenario.fee_0_01 zero = true).
Proof.
  split.
  - apply (proj1 (main_checks_ledger_and_fee_amounts
                    Scenario.parseFloat ["-k"; "key"; "-a"; "0.01"] None
                    Scenario.A _ _ (surjective_pairing _))
                 Scenario.fee_0_01 (Ok tt)).
    vm_compute. do 7 right. left. reflexivity.
  - apply (proj2 (main_checks_ledger_and_fee_amounts
                    Scenario.parseFloat
                    ["-k"; "key"; "-p"; "0xAAA"; "-q"; "Hello, AI!";
                     "-f"; "0.01"] None
                    Scenario.B _ _ (surjective_pairing _))
                 "0xAAA" Scenario.fee_0_01 (Ok tt)).
    vm_compute. repeat (first [left; reflexivity | right]).
Defined.

(** ** One operation per run *)

Lemma main_selected (parseFloat : string -> number) (argv : list string)
      (PRIVATE_KEY : option string) :
  emits (belongs (selected (Cli.parseArgs argv)))
        (Cli.main parseFloat argv PRIVATE_KEY).
Proof.
  assert (Hconsole : forall op l line, belongs op (EvConsole l line))
    by (intros; exact I).
  unfold Cli.main, Cli.showHelp, selected. cbv zeta.
  cbn [List.find flag_of].
  repeat match goal with
         | |- emits _ (bind _ _) => apply emits_bind; [|intros ?]
         | |- emits _ (try_catch _ _) => apply emits_try_catch; [|intros ?]
         | |- emits _ (console _ _) => apply emits_console; exact I
         | |- emits _ (ret _) => apply emits_ret
         | |- emits _ (process_exit _) => apply emits_process_exit
         | |- emits _ (match ?x with _ => _ end) => destruct x eqn:?
         | |- emits _ (Cli.initializeWalletAndBroker _) =>
             apply initializeWalletAndBroker_footprint; intros; exact I
         | |- emits _ Cli.listServices =>
             apply listServices_footprint; intros; cbn; auto
         | |- emits _ Cli.checkBalance =>
             apply checkBalance_footprint; intros; cbn; auto
         | |- emits _ (Cli.depositFunds _) =>
             apply depositFunds_footprint; intros; cbn; auto
         | |- emits _ (Cli.addFundsToLedger _) =>
             apply addFundsToLedger_footprint; intros; cbn; auto
         | |- emits _ (Cli.settleFeeManually _ _) =>
             apply settleFeeManually_footprint; intros; cbn; auto
         | |- emits _ (Cli.sendQuery _ _ _) =>
             apply sendQuery_footprint; intros; cbn; auto
         end.
Qed.

(** X18.  [main] performs at most one operation per run: the first, in
    the order listing, deposit, balance, ledger top-up, manual settlement,
    query, whose flag is set.  Besides creating the wallet and the broker,
    every call it makes belongs to that operation (a deposit or a top-up
    includes the balance read that follows it, a query its fallback
    settlement); when no operation is selected it makes no further call. *)
Theorem main_runs_the_selected_operation
        (parseFloat : string -> number) (argv : list string)
        (PRIVATE_KEY : option string) (w : World)
        (out : Outcome unit) (t : Trace) :
  run (Cli.main parseFloat argv PRIVATE_KEY) w = (out, t) ->
  Forall (belongs (selected (Cli.parseArgs argv))) t.
Proof.
  intros Hrun.
  replace t with (snd (run (Cli.main parseFloat argv PRIVATE_KEY) w))
    by now rewrite Hrun.
  apply emits_run, main_selected.
Qed.

Lemma main_runs_the_selected_operation_listing :
  selected (Cli.parseArgs ["-k"; "key"; "-d"; "0.01"; "-l"]) = Some OpList
  /\ Forall (belongs (Some OpList))
            (snd (run (Cli.main Scenario.parseFloat
                         ["-k"; "key"; "-d"; "0.01"; "-l"] None)
                      Scenario.A)).
Proof.
  split; [vm_compute; reflexivity|].
  apply (main_runs_the_selected_operation
           Scenario.parseFloat ["-k"; "key"; "-d"; "0.01"; "-l"] None
           Scenario.A (fst _) (snd _) (surjective_pairing _)).
Defined.

(** ** Deposits and listings on the command line *)

Ltac unfold_ledger H :=
  unfold run, Cli.depositFunds, Cli.addFundsToLedger, Cli.checkBalance,
    Cli.listServices, ledger_depositFund, ledger_addLedger, ledger_getLedger,
    inference_listService, console, bind, try_catch, call, ret, throw in H;
  cbn beta iota zeta in H.

(** X19.  The CLI reads the balance after a deposit or a ledger top-up
    exactly when the broker accepted it.  A rejected deposit is reported
    under [Error depositing funds:] and no balance is read; after an
    accepted one [Deposit successful.] is printed and the balance is read
    once, and a failure of that read is reported as a balance error, not as
    a failed deposit.  The top-up behaves alike. *)
Theorem cli_balance_follows_accepted_deposit
        (amount : number) (w : World) :
  (forall out t,
      run (Cli.depositFunds amount) w = (out, t) ->
      exists r,
        calls t = EvDepositFund amount r :: map EvGetLedger (balances t)
        /\ match r with
           | Throw e =>
               balances t = []
               /\ last (printed t)
                  = Some (ErrorLog, [PStr "Error depositing funds:";
                                     PStr (message e)])
           | Ok _ =>
               In (Log, [PStr "Deposit successful."]) (printed t)
               /\ exists b,
                   balances t = [b]
                   /\ last (printed t)
                      = Some (match b with
                              | Ok v => (Log, [PStr "Current balance:";
                                               PAny v])
                              | Throw e =>
                                  (ErrorLog,
                                   [PStr "Error checking balance:";
                                    PStr (message e)])
                              end)
           end)
  /\ (forall out t,
         run (Cli.addFundsToLedger amount) w = (out, t) ->
         exists r,
           calls t = EvAddLedger amount r :: map EvGetLedger (balances t)
           /\ match r with
              | Throw e =>
                  balances t = []
                  /\ last (printed t)
                     = Some (ErrorLog, [PStr "Error adding funds to ledger:";
                                        PStr (message e)])
              | Ok _ =>
                  In (Log, [PStr "Funds added successfully."]) (printed t)
                  /\ exists b,
                      balances t = [b]
                      /\ last (printed t)
                         = Some (match b with
                                 | Ok v => (Log, [PStr "Current balance:";
                                                  PAny v])
                                 | Throw e =>
                                     (ErrorLog,
                                      [PStr "Error checking balance:";
                                       PStr (message e)])
                                 end)
              end).
Proof.
  split; intros out t Hrun; unfold_ledger Hrun;
    repeat match type of Hrun with
           | context [match ?r with Ok _ => _ | Throw _ => _ end] =>
               destruct r eqn:?; cbn beta iota zeta in Hrun
           end;
    injection Hrun as <- <-; cbn [app];
    eexists; (split; [reflexivity|]); cbn;
    first [ split; reflexivity
          | split; [member|]; eexists; split; reflexivity ].
Qed.

Lemma cli_balance_follows_accepted_deposit_unreadable :
  (let t := snd (run (Cli.depositFunds Scenario.fee_0_01)
                     Worlds.ledger_unreadable) in
   exists r,
     calls t = EvDepositFund Scenario.fee_0_01 r
               :: map EvGetLedger (balances t)
     /\ match r with
        | Throw e =>
            balances t = []
            /\ last (printed t)
               = Some (ErrorLog, [PStr "Error depositing funds:";
                                  PStr (message e)])
        | Ok _ =>
            In (Log, [PStr "Deposit successful."]) (printed t)
            /\ exists b,
                balances t = [b]
                /\ last (printed t)
                   = Some (match b with
                           | Ok v => (Log, [PStr "Current balance:"; PAny v])
                           | Throw e =>
                               (ErrorLog, [PStr "Error checking balance:";
                                           PStr (message e)])
                           end)
        end)
  /\ (let t := snd (run (Cli.addFundsToLedger Scenario.fee_0_01)
                        Worlds.ledger_unreadable) in
      exists r,
        calls t = EvAddLedger Scenario.fee_0_01 r
                  :: map EvGetLedger (balances t)
        /\ match r with
           | Throw e =>
               balances t = []
               /\ last (printed t)
                  = Some (ErrorLog, [PStr "Error adding funds to ledger:";
                                     PStr (message e)])
           | Ok _ =>
               In (Log, [PStr "Funds added successfully."]) (printed t)
               /\ exists b,
                   balances t = [b]
                   /\ last (printed t)
                      = Some (match b with
                              | Ok v => (Log, [PStr "Current balance:";
                                               PAny v])
                              | Throw e =>
                                  (ErrorLog,
                                   [PStr "Error checking balance:";
                                    PStr (message e)])
                              end)
           end).
Proof.
  destruct (cli_balance_follows_accepted_deposit
              Scenario.fee_0_01 Worlds.ledger_unreadable) as [Hd Ha].
  split; intros t.
  - apply (Hd (fst (run (Cli.depositFunds Scenario.fee_0_01)
                        Worlds.ledger_unreadable)) t).
    apply surjective_pairing.
  - apply (Ha (fst (run (Cli.addFundsToLedger Scenario.fee_0_01)
                        Worlds.ledger_unreadable)) t).
    apply surjective_pairing.
Defined.

(** The lines printed for one service. *)
Lemma print_services_cons (service : Service) (rest : list Service)
      (index : nat) (w : World) (t : Trace) :
  Cli.print_services index (service :: rest) w t
  = Cli.print_services (S index) rest w
      (t ++ [EvConsole Log [PStr (LF +:+ "["); PNat (index + 1);
                            PStr "] Service Details:"];
             EvConsole Log [PStr "- Model: "; PStr (svc_model service)];
             EvConsole Log [PStr "- Provider: "; PStr (svc_provider service)];
             EvConsole Log [PStr "- Type: "; PStr (svc_serviceType service)];
             EvConsole Log [PStr "- URL: "; PStr (svc_url service)]]).
Proof.
  cbn [Cli.print_services]. unfold bind, console. cbn beta iota zeta.
  now rewrite <- !app_assoc.
Qed.

(** The lines and the numbers printed for the services, from any index. *)
Lemma print_services_run (services : list Service) (index : nat)
      (w : World) (t : Trace) :
  exists d,
    Cli.print_services index services w t = (Returned tt, t ++ d)
    /\ listed_providers d = map svc_provider services
    /\ listed_numbers d = seq (index + 1) (length services)
    /\ calls d = [].
Proof.
  revert index t. induction services as [|service rest IH]; intros index t.
  - exists []. cbn. rewrite app_nil_r. auto.
  - rewrite print_services_cons.
    match goal with
    | |- context [Cli.print_services _ _ _ (t ++ ?lines)] =>
        destruct (IH (S index) (t ++ lines)) as (d & Hd & Hp & Hn & Hc);
        exists (lines ++ d)
    end.
    split; [now rewrite Hd, <- app_assoc|].
    unfold listed_providers, listed_numbers, calls in *.
    rewrite !omap_app, List.filter_app, Hp, Hn, Hc.
    repeat split.
Qed.

(** X20.  When the broker returns its list of services, the CLI lists
    every one of them, once, in the order of the broker, numbered from 1;
    it makes no other call, and an empty list prints no service at all. *)
Theorem cli_lists_every_service
        (w : World) (out : Outcome unit) (t : Trace)
        (services : list Service) :
  run Cli.listServices w = (out, t) ->
  In (Ok services) (listings t) ->
  out = Returned tt
  /\ listed_providers t = map svc_provider services
  /\ listed_numbers t = seq 1 (length services)
  /\ calls t = [EvListService (Ok services)].
Proof.
  intros Hrun Hin. unfold_ledger Hrun. cbn [app] in Hrun.
  destruct (w_listService w _) as [l|e] eqn:Hcall; cbn beta iota in Hrun.
  - match type of Hrun with
    | context [Cli.print_services 0 l w ?t0] =>
        destruct (print_services_run l 0 w t0) as (d & Hd & Hp & Hn & Hc)
    end.
    rewrite Hd in Hrun. injection Hrun as <- <-.
    assert (Hl : listings d = []).
    { clear - Hc. induction d as [|e d IH]; [reflexivity|].
      destruct e; cbn in *; try discriminate; auto. }
    match type of Hin with
    | In _ (listings (?a :: ?b :: ?c :: d)) =>
        change (a :: b :: c :: d) with ([a; b; c] ++ d) in *
    end.
    unfold listings, listed_providers, listed_numbers, calls in *.
    rewrite omap_app, Hl in Hin.
    cbn in Hin. destruct Hin as [[= ->]|[]].
    rewrite !omap_app, List.filter_app, Hp, Hn, Hc. auto.
  - injection Hrun as <- <-. cbn in Hin. destruct Hin as [[=]|[]].
Qed.

Lemma cli_lists_every_service_scenario :
  let r := run Cli.listServices Worlds.transport_down in
  fst r = Returned tt
  /\ listed_providers (snd r)
     = map svc_provider [Worlds.a_service; Worlds.another_service]
  /\ listed_numbers (snd r) = seq 1 2
  /\ calls (snd r)
     = [EvListService (Ok [Worlds.a_service; Worlds.another_service])].
Proof.
  intros r.
  apply (cli_lists_every_service Worlds.transport_down (fst r) (snd r)).
  - apply surjective_pairing.
  - vm_compute. left. reflexivity.
Defined.

(** ** The command line arguments *)

(** One turn of the loop of [parseArgs]. *)
Lemma parseArgs_loop_cons (arg : string) (rest : list string)
      (flags : gmap string string) :
  Cli.parseArgs_loop (arg :: rest) flags
  = if Cli.startsWith "--" arg || Cli.startsWith "-" arg then
      let name :=
        if Cli.startsWith "--" arg then Cli.substring_from 2 arg
        else match Cli.shortToLong !! Cli.substring_from 1 arg with
             | Some longFlag => longFlag
             | None => Cli.substring_from 1 arg
             end in
      match rest with
      | value :: rest' =>
          if negb (Cli.startsWith "-" value)
          then Cli.parseArgs_loop rest' (<[name := value]> flags)
          else Cli.parseArgs_loop rest (<[name := "true"]> flags)
      | [] => Cli.parseArgs_loop rest (<[name := "true"]> flags)
      end
    else Cli.parseArgs_loop rest flags.
Proof.
  cbn [Cli.parseArgs_loop].
  destruct (Cli.startsWith "--" arg), (Cli.startsWith "-" arg);
    reflexivity.
Qed.

(** Splitting the arguments in front of a flag: the loop reaches that flag
    with the flags of what came before. *)
Lemma parseArgs_loop_app (xs : list string) (y : string) (ys : list string)
      (flags : gmap string string) :
  Cli.startsWith "-" y = true ->
  Cli.parseArgs_loop (xs ++ y :: ys) flags
  = Cli.parseArgs_loop (y :: ys) (Cli.parseArgs_loop xs flags).
Proof.
  intros Hy. remember (length xs) as n eqn:Hn.
  revert xs Hn flags. induction n as [n IH] using lt_wf_ind.
  intros xs Hn flags. destruct xs as [|arg rest]; [reflexivity|].
  cbn [app]. cbn in Hn.
  assert (Hrest : forall flags',
             Cli.parseArgs_loop (rest ++ y :: ys) flags'
             = Cli.parseArgs_loop (y :: ys) (Cli.parseArgs_loop rest flags')).
  { intros flags'. apply (IH (length rest)); [lia|reflexivity]. }
  rewrite (parseArgs_loop_cons arg (rest ++ y :: ys)).
  rewrite (parseArgs_loop_cons arg rest).
  destruct (Cli.startsWith "--" arg || Cli.startsWith "-" arg);
    [|apply Hrest].
  cbv zeta. destruct rest as [|value rest'].
  - cbn [app]. now rewrite Hy.
  - cbn [app]. destruct (negb (Cli.startsWith "-" value)).
    + apply (IH (length rest')); [cbn in Hn; lia|reflexivity].
    + apply Hrest.
Qed.

(** X21.  Parsing the command line can be cut in front of any argument
    that starts with a dash: what stands before it is parsed as if it were
    the whole command line, and the parse goes on from there.  No flag in
    front swallows an argument that starts with a dash as its value. *)
Theorem parseArgs_splits_at_a_flag
        (xs : list string) (y : string) (ys : list string) :
  Cli.startsWith "-" y = true ->
  Cli.parseArgs (xs ++ y :: ys)
  = Cli.parseArgs_loop (y :: ys) (Cli.parseArgs xs).
Proof. intros Hy. unfold Cli.parseArgs. now apply parseArgs_loop_app. Qed.

Lemma parseArgs_splits_at_a_flag_example :
  Cli.parseArgs (["-k"; "key"; "-b"] ++ "-d" :: ["0.01"])
  = Cli.parseArgs_loop ("-d" :: ["0.01"]) (Cli.parseArgs ["-k"; "key"; "-b"]).
Proof.
  apply (parseArgs_splits_at_a_flag ["-k"; "key"; "-b"] "-d" ["0.01"]).
  reflexivity.
Defined.

Lemma startsWith_long (name : string) :
  Cli.startsWith "--" ("--" +:+ name) = true.
Proof.
  unfold Cli.startsWith. cbn.
  repeat (destruct (Ascii.ascii_dec _ _); [|congruence]).
  now destruct name.
Qed.

Lemma substring_whole (s : string) : String.substring 0 (String.length s) s = s.
Proof. induction s as [|c s IH]; cbn; [reflexivity|now rewrite IH]. Qed.

Lemma substring_from_long (name : string) :
  Cli.substring_from 2 ("--" +:+ name) = name.
Proof.
  unfold Cli.substring_from.
  replace (String.length ("--" +:+ name) - 2) with (String.length name)
    by (change (String.length ("--" +:+ name))
          with (S (S (String.length name))); lia).
  cbn. apply substring_whole.
Qed.

(** X22.  The last occurrence wins: a long flag given with a value at the
    end of the command line is stored with that value, whatever stood
    before, an earlier value of the same flag included.  The name
    [__proto__] is left aside: on the plain object of the source an
    assignment to it stores no property. *)
Theorem parseArgs_last_flag_wins
        (xs : list string) (name value : string) :
  name <> "__proto__" ->
  Cli.startsWith "-" value = false ->
  Cli.parseArgs (xs ++ ["--" +:+ name; value]) !! name = Some value.
Proof.
  intros _ Hvalue. unfold Cli.parseArgs.
  rewrite parseArgs_loop_app by reflexivity.
  rewrite parseArgs_loop_cons.
  rewrite startsWith_long.
  cbn [orb]. cbv zeta. rewrite Hvalue. cbn [negb].
  rewrite substring_from_long.
  cbn [Cli.parseArgs_loop]. apply lookup_insert_eq.
Qed.

Lemma parseArgs_last_flag_wins_example :
  Cli.parseArgs (["--query"; "first"; "-b"] ++ ["--" +:+ "query"; "second"])
  !! "query" = Some "second".
Proof.
  apply (parseArgs_last_flag_wins ["--query"; "first"; "-b"] "query" "second").
  - discriminate.
  - reflexivity.
Defined.

(** What the loop stores is the text [true] or an argument without
    dash. *)
Lemma parseArgs_loop_values (P : string -> Prop) (args : list string) :
  P "true" ->
  forall flags : gmap string string,
    (forall v, In v args -> Cli.startsWith "-" v = false -> P v) ->
    (forall k v, flags !! k = Some v -> P v) ->
    forall k v, Cli.parseArgs_loop args flags !! k = Some v -> P v.
Proof.
  intros Htrue. remember (length args) as n eqn:Hn.
  revert args Hn. induction n as [n IH] using lt_wf_ind.
  intros args Hn flags Hargs Hflags. destruct args as [|arg rest].
  - exact Hflags.
  - cbn in Hn. rewrite parseArgs_loop_cons.
    assert (Hinsert : forall name value,
               P value ->
               forall k v, <[name := value]> flags !! k = Some v -> P v).
    { intros name value Hvalue k v.
      destruct (decide (name = k)) as [->|Hne].
      - rewrite lookup_insert_eq. now intros [= <-].
      - rewrite lookup_insert_ne by assumption. apply Hflags. }
    destruct (Cli.startsWith "--" arg || Cli.startsWith "-" arg).
    + cbv zeta. destruct rest as [|value rest'].
      * apply (IH 0); [lia|reflexivity|intros ? []|]. now apply Hinsert.
      * destruct (Cli.startsWith "-" value) eqn:Hvalue; cbn [negb].
        -- apply (IH (length (value :: rest'))); [lia|reflexivity| |].
           ++ intros v Hin. apply Hargs. now right.
           ++ now apply Hinsert.
        -- apply (IH (length rest')); [cbn in *; lia|reflexivity| |].
           ++ intros v Hin. apply Hargs. now right; right.
           ++ apply Hinsert. apply Hargs; [right; now left|exact Hvalue].
    + apply (IH (length rest)); [lia|reflexivity| |exact Hflags].
      intros v Hin. apply Hargs. now right.
Qed.

(** X23.  Every value stored by [parseArgs] is either the text [true]
    or one of the arguments, and then one that does not start with a dash:
    an argument that starts with a dash, a negative number for instance,
    is never taken as the value of a flag. *)
Theorem parseArgs_values
        (argv : list string) (key value : string) :
  Cli.parseArgs argv !! key = Some value ->
  value = "true" \/ (In value argv /\ Cli.startsWith "-" value = false).
Proof.
  unfold Cli.parseArgs.
  apply (parseArgs_loop_values
           (fun v => v = "true"
                     \/ (In v argv /\ Cli.startsWith "-" v = false))).
  - now left.
  - intros v Hin Hv. right. auto.
  - intros k v. rewrite lookup_empty. discriminate.
Qed.

Lemma parseArgs_values_negative_amount :
  "true" = "true"
  \/ (In "true" ["-k"; "key"; "-d"; "-1"]
      /\ Cli.startsWith "-" "true" = false).
Proof.
  apply (parseArgs_values ["-k"; "key"; "-d"; "-1"] "depositFee" "true").
  vm_compute. reflexivity.
Defined.

Lemma shortToLong_cases (short long : string) :
  Cli.shortToLong !! short = Some long ->
  In (short, long)
     [ ("k", "privateKey"); ("l", "ls"); ("d", "depositFee");
       ("a", "addLedger"); ("b", "balance"); ("s", "settleFee");
       ("p", "provider"); ("q", "query"); ("f", "fallbackFee");
       ("h", "help") ].
Proof.
  intros H. apply elem_of_list_to_map_2 in H.
  now apply list_elem_of_In in H.
Qed.

Lemma startsWith_short (short : string) :
  Cli.startsWith "-" ("-" +:+ short) = true.
Proof.
  unfold Cli.startsWith. cbn.
  repeat (destruct (Ascii.ascii_dec _ _); [|congruence]).
  now destruct short.
Qed.

Lemma substring_from_short (short : string) :
  Cli.substring_from 1 ("-" +:+ short) = short.
Proof.
  unfold Cli.substring_from.
  replace (String.length ("-" +:+ short) - 1) with (String.length short)
    by (change (String.length ("-" +:+ short))
          with (S (String.length short)); lia).
  cbn. apply substring_whole.
Qed.

(** X24.  A short flag of the table stands for its long flag: written
    [-d] or [--depositFee] (and so on for the ten short flags), the
    argument is parsed to the same flags, whatever follows and whatever
    was parsed before. *)
Theorem parseArgs_short_flag_is_long_flag
        (short long : string) (rest : list string)
        (flags : gmap string string) :
  Cli.shortToLong !! short = Some long ->
  Cli.parseArgs_loop (("-" +:+ short) :: rest) flags
  = Cli.parseArgs_loop (("--" +:+ long) :: rest) flags.
Proof.
  intros Hshort. rewrite !parseArgs_loop_cons.
  rewrite startsWith_long, substring_from_long.
  rewrite startsWith_short, substring_from_short, Hshort.
  rewrite orb_true_r. cbn [orb]. cbv zeta.
  pose proof (shortToLong_cases _ _ Hshort) as Hcases. cbn in Hcases.
  repeat (destruct Hcases as [[= <- <-]|Hcases]; [reflexivity|]).
  destruct Hcases.
Qed.

Lemma parseArgs_short_flag_is_long_flag_deposit :
  Cli.parseArgs_loop (("-" +:+ "d") :: ["0.01"; "-b"]) ∅
  = Cli.parseArgs_loop (("--" +:+ "depositFee") :: ["0.01"; "-b"]) ∅.
Proof.
  apply (parseArgs_short_flag_is_long_flag "d" "depositFee").
  vm_compute. reflexivity.
Defined.

(** ** A query that cannot be sent *)

Lemma selected_query (flags : gmap string string) :
  selected flags = Some OpQuery ->
  Cli.flag flags "ls" = None
  /\ Cli.flag flags "depositFee" = None
  /\ Cli.flag flags "balance" = None
  /\ Cli.flag flags "addLedger" = None
  /\ Cli.flag flags "settleFee" = None
  /\ exists query, Cli.flag flags "query" = Some query.
Proof.
  unfold selected. cbn [List.find flag_of].
  destruct (Cli.flag flags "ls"); [discriminate|].
  destruct (Cli.flag flags "depositFee"); [discriminate|].
  destruct (Cli.flag flags "balance"); [discriminate|].
  destruct (Cli.flag flags "addLedger"); [discriminate|].
  destruct (Cli.flag flags "settleFee"); [discriminate|].
  destruct (Cli.flag flags "query"); [|discriminate].
  eauto 10.
Qed.

(** X25.  A query is not sent half-specified.  When the query is the
    selected operation but no provider is given, or the fallback fee given
    does not parse to a number greater than zero, [main] makes none of the
    calls of a query and, if it got as far as having a broker, prints what
    is missing or wrong: the missing provider first, the invalid fee
    otherwise. *)
Theorem main_rejects_incomplete_query
        (parseFloat : string -> number) (argv : list string)
        (PRIVATE_KEY : option string) (w : World)
        (out : Outcome unit) (t : Trace) :
  Cli.flag (Cli.parseArgs argv) "help" = None ->
  selected (Cli.parseArgs argv) = Some OpQuery ->
  Cli.flag (Cli.parseArgs argv) "provider" = None
  \/ (exists text,
         Cli.flag (Cli.parseArgs argv) "fallbackFee" = Some text
         /\ (isNaN (parseFloat text) = true
             \/ le (parseFloat text) zero = true)) ->
  run (Cli.main parseFloat argv PRIVATE_KEY) w = (out, t) ->
  stages t = []
  /\ (out = Returned tt ->
      last (printed t)
      = Some (ErrorLog,
              [PStr (match Cli.flag (Cli.parseArgs argv) "provider" with
                     | None =>
                         "Provider address is required with -p/--provider [address]"
                     | Some _ => "Invalid fallback fee amount"
                     end)])).
Proof.
  intros Hhelp Hselected Hbad Hrun.
  destruct (selected_query _ Hselected)
    as (Hls & Hdeposit & Hbalance & Hadd & Hsettle & query & Hquery).
  unfold_main Hrun. rewrite Hhelp in Hrun.
  repeat main_step Hrun;
    rewrite ?Hls, ?Hdeposit, ?Hbalance, ?Hadd, ?Hsettle, ?Hquery in Hrun;
    cbn beta iota zeta in Hrun.
  all: destruct Hbad as [Hprovider|(text & Hfee & Hinvalid)].
  all: try (rewrite Hprovider in *).
  all: try (destruct (Cli.flag (Cli.parseArgs argv) "provider");
            rewrite ?Hfee in Hrun;
            assert (Hcond : isNaN (parseFloat text)
                            || le (parseFloat text) zero = true)
              by (destruct Hinvalid as [-> | ->];
                  [reflexivity|apply orb_true_r]);
            rewrite ?Hcond in Hrun).
  all: cbn beta iota zeta in Hrun; injection Hrun as <- <-.
  all: split; [reflexivity|intros Hout; try discriminate Hout; reflexivity].
Qed.

Lemma main_rejects_incomplete_query_scenario :
  (let r := run (Cli.main Scenario.parseFloat
                   ["-k"; "key"; "-q"; "Hello, AI!"] None) Scenario.A in
   stages (snd r) = []
   /\ (fst r = Returned tt ->
       last (printed (snd r))
       = Some (ErrorLog,
               [PStr (match Cli.flag (Cli.parseArgs
                                        ["-k"; "key"; "-q"; "Hello, AI!"])
                                     "provider" with
                      | None =>
                          "Provider address is required with -p/--provider [address]"
                      | Some _ => "Invalid fallback fee amount"
                      end)])))
  /\ (let r := run (Cli.main Scenario.parseFloat
                      ["-k"; "key"; "-p"; "0xAAA"; "-q"; "Hello, AI!";
                       "-f"; "0"] None) Scenario.A in
      stages (snd r) = []
      /\ (fst r = Returned tt ->
          last (printed (snd r))
          = Some (ErrorLog,
                  [PStr (match Cli.flag (Cli.parseArgs
                                           ["-k"; "key"; "-p"; "0xAAA";
                                            "-q"; "Hello, AI!"; "-f"; "0"])
                                        "provider" with
                         | None =>
                             "Provider address is required with -p/--provider [address]"
                         | Some _ => "Invalid fallback fee amount"
                         end)]))).
Proof.
  split; intros r.
  - apply (main_rejects_incomplete_query
             Scenario.parseFloat ["-k"; "key"; "-q"; "Hello, AI!"] None
             Scenario.A (fst r) (snd r)).
    + vm_compute. reflexivity.
    + vm_compute. reflexivity.
    + left. vm_compute. reflexivity.
    + apply surjective_pairing.
  - apply (main_rejects_incomplete_query
             Scenario.parseFloat
             ["-k"; "key"; "-p"; "0xAAA"; "-q"; "Hello, AI!"; "-f"; "0"]
             None Scenario.A (fst r) (snd r)).
    + vm_compute. reflexivity.
    + vm_compute. reflexivity.
    + right. exists "0". split; [vm_compute; reflexivity|].
      right. vm_compute. reflexivity.
    + apply surjective_pairing.
Defined.

(** ** A deposit that goes through *)

Lemma selected_deposit (flags : gmap string string) :
  selected flags = Some OpDeposit ->
  Cli.flag flags "ls" = None
  /\ exists text, Cli.flag flags "depositFee" = Some text.
Proof.
  unfold selected. cbn [List.find flag_of].
  destruct (Cli.flag flags "ls"); [discriminate|].
  destruct (Cli.flag flags "depositFee"); [eauto|].
  destruct (Cli.flag flags "balance"); [discriminate|].
  destruct (Cli.flag flags "addLedger"); [discriminate|].
  destruct (Cli.flag flags "settleFee"); [discriminate|].
  destruct (Cli.flag flags "query"); discriminate.
Qed.

(** X26.  A deposit request whose amount parses to a number greater than
    zero reaches the broker as one [depositFund] call with exactly the
    parsed amount, as soon as [main] has a broker; it is not repeated when
    the broker rejects it, and [main] returns normally either way. *)
Theorem main_deposits_the_parsed_amount
        (parseFloat : string -> number) (argv : list string)
        (PRIVATE_KEY : option string) (w : World) (text : string)
        (out : Outcome unit) (t : Trace) :
  Cli.flag (Cli.parseArgs argv) "help" = None ->
  selected (Cli.parseArgs argv) = Some OpDeposit ->
  Cli.flag (Cli.parseArgs argv) "depositFee" = Some text ->
  amount_ok (parseFloat text) = true ->
  run (Cli.main parseFloat argv PRIVATE_KEY) w = (out, t) ->
  (forall wl, In (EvCreateBroker wl (Ok tt)) t ->
              out = Returned tt /\ deposits t = [parseFloat text])
  /\ (out = Returned tt -> deposits t = [parseFloat text]).
Proof.
  intros Hhelp Hselected Hdeposit Hok Hrun.
  destruct (selected_deposit _ Hselected) as (Hls & _).
  unfold amount_ok in Hok.
  unfold_main Hrun. rewrite Hhelp in Hrun.
  repeat main_step Hrun;
    rewrite ?Hls, ?Hdeposit, ?Hok in Hrun;
    cbn beta iota zeta in Hrun.
  all: unfold_ledger Hrun.
  all: repeat match type of Hrun with
              | context [match ?r with Ok _ => _ | Throw _ => _ end] =>
                  destruct r eqn:?; cbn beta iota zeta in Hrun
              end.
  all: injection Hrun as <- <-; cbn [app].
  all: split; [intros wl Hin; cbn in Hin; event_leaf;
               split; reflexivity
              |intros Hout; try discriminate Hout; reflexivity].
Qed.

Lemma main_deposits_the_parsed_amount_scenario :
  let r := run (Cli.main Scenario.parseFloat ["-k"; "key"; "-d"; "0.01"]
                         None) Scenario.A in
  (forall wl, In (EvCreateBroker wl (Ok tt)) (snd r) ->
              fst r = Returned tt /\ deposits (snd r) = [Scenario.fee_0_01])
  /\ (fst r = Returned tt -> deposits (snd r) = [Scenario.fee_0_01]).
Proof.
  intros r.
  apply (main_deposits_the_parsed_amount
           Scenario.parseFloat ["-k"; "key"; "-d"; "0.01"] None Scenario.A
           "0.01" (fst r) (snd r)).
  - vm_compute. reflexivity.
  - vm_compute. reflexivity.
  - vm_compute. reflexivity.
  - vm_compute. reflexivity.
  - apply surjective_pairing.
Defined.
